(** * LivecastServer: a shallow embedding of [src/index.js]

    The server object, its helper [addTimeoutToPromise] (src/utils/utils.js)
    and the Node event loop that drives them are embedded as follows.

    - Synchronous stretches of JavaScript (the code between two [await]s, an
      event handler, a constructor) are computations in a small state and
      exception monad [M].
    - Every suspended activation of an [async] method is data: a capture
      ([_makeSnapshot]) waiting for the page or for [writeFile], the [serve]
      call waiting on the timeout race, a [prompt] call waiting for its answer.
    - The environment (socket.io, the page, the file system, timers, the
      driver calling [serve] and [prompt]) is a stream of timestamped events;
      [step] runs the JavaScript that one event triggers, to completion, as
      the event loop does (a macrotask followed by its microtasks).
    - Calls that leave the object ([log.*], [socketio.emit], [writeFile],
      [unlink], handler invocations) and a few program points are recorded
      in an effect trace.

    JavaScript numbers are modelled by [Z]: every number the server computes
    with is an integer far below 2^53, where doubles are exact. Strings are
    held as their UTF-8 bytes. *)

From Stdlib Require Import ZArith Lia Ascii String List.
From stdpp Require Import gmap strings list list_numbers pretty sorting.

Local Open Scope Z_scope.
Local Set Warnings "-register-all".

(** ** JavaScript values and the pieces of the runtime that the code uses *)

Module Js.

(** The values that travel over the socket, as far as the server looks
    into them: what [JSON.parse] returns for a text without arrays and
    without fractional numbers. *)
Inductive value :=
| VUndefined
| VNull
| VBool (b : bool)
| VNum (n : Z)
| VStr (s : string)
| VObj (props : list (string * value)).

Inductive Error :=
| JsError (message : string)        (* new Error(message) *)
| TypeError (message : string).

Inductive Result (A : Type) :=
| Ok (a : A)
| Throw (e : Error).
Arguments Ok {A} a.
Arguments Throw {A} e.

(** [assoc k props]: the own property [k] of an object literal. *)
Fixpoint assoc (k : string) (props : list (string * value)) : option value :=
  match props with
  | [] => None
  | (k', v) :: rest => if String.eqb k k' then Some v else assoc k rest
  end.

(** [v.action]: reading a property of [undefined] or [null] throws; a
    primitive or an object without the property yields [undefined]. *)
Definition get_action (v : value) : Result value :=
  match v with
  | VUndefined => Throw (TypeError "Cannot read properties of undefined (reading 'action')")
  | VNull => Throw (TypeError "Cannot read properties of null (reading 'action')")
  | VObj props => Ok (default VUndefined (assoc "action" props))
  | _ => Ok VUndefined
  end.

(** [obj[v]] converts [v] to a property key. An object is converted by its
    [toString], which is [Object.prototype.toString] unless the object has a
    property of that name of its own; in data such a property cannot be
    called, [valueOf] gives no primitive either, and the conversion throws. *)
Definition property_key (v : value) : Result string :=
  match v with
  | VUndefined => Ok "undefined"
  | VNull => Ok "null"
  | VBool true => Ok "true"
  | VBool false => Ok "false"
  | VNum n => Ok (pretty n)
  | VStr s => Ok s
  | VObj props =>
      match assoc "toString" props with
      | None => Ok "[object Object]"
      | Some _ => Throw (TypeError "Cannot convert object to primitive value")
      end
  end.

(** A parameter with a default, [f(x = d)]: the default applies when the
    argument is missing or undefined. *)
Definition default_param (d : value) (argument : option value) : value :=
  match argument with
  | None | Some VUndefined => d
  | Some v => v
  end.

(** What [obj[key]] can be to the call [obj[key](arg)] when it is truthy: a
    function, or something that cannot be called. *)
Inductive member :=
| Function (f : value -> Result value)
| NotCallable.

(** [own.hasOwnProperty(v)] and [own.propertyIsEnumerable(v)]: the own
    properties of an object literal are enumerable. *)
Definition has_own {A} (own : gmap string A) (v : value) : Result value :=
  match property_key v with
  | Ok key => Ok (VBool (bool_decide (is_Some (own !! key))))
  | Throw e => Throw e
  end.

(** [Object.prototype], which every object literal inherits from, as the
    call [obj[key](arg)] sees its twelve members. [own] holds the own
    properties of the object literal [obj], the [this] of the call, all of
    them functions; [arg] is an object (a response whose [action] named the
    member). [valueOf] returns [obj] itself, which as data is the empty
    object: a function is not data. [__proto__] is the prototype, an object
    that cannot be called. *)
Definition Object_prototype (own : gmap string (value -> Result value)) :
    gmap string member :=
  list_to_map
    [ ("constructor", Function (fun arg => Ok arg));
      ("toString", Function (fun _ => Ok (VStr "[object Object]")));
      ("toLocaleString",
       Function (fun _ => match own !! "toString" with
                          | Some f => f VUndefined
                          | None => Ok (VStr "[object Object]")
                          end));
      ("valueOf", Function (fun _ => Ok (VObj [])));
      ("hasOwnProperty", Function (has_own own));
      ("propertyIsEnumerable", Function (has_own own));
      ("isPrototypeOf", Function (fun _ => Ok (VBool false)));
      ("__defineGetter__",
       Function (fun _ => Throw (TypeError
         "Object.prototype.__defineGetter__: Expecting function")));
      ("__defineSetter__",
       Function (fun _ => Throw (TypeError
         "Object.prototype.__defineSetter__: Expecting function")));
      ("__lookupGetter__",
       Function (fun arg => match property_key arg with
                            | Ok _ => Ok VUndefined
                            | Throw e => Throw e
                            end));
      ("__lookupSetter__",
       Function (fun arg => match property_key arg with
                            | Ok _ => Ok VUndefined
                            | Throw e => Throw e
                            end));
      ("__proto__", NotCallable) ].

Definition Object_prototype_names : list string :=
  [ "constructor"; "toString"; "toLocaleString"; "valueOf"; "hasOwnProperty";
    "propertyIsEnumerable"; "isPrototypeOf"; "__defineGetter__";
    "__defineSetter__"; "__lookupGetter__"; "__lookupSetter__"; "__proto__" ].

(** [obj[key]] for the object literal [obj] with the own properties [own]:
    an own property first, an inherited one otherwise; [None] is undefined. *)
Definition get_member (own : gmap string (value -> Result value)) (key : string) :
    option member :=
  match own !! key with
  | Some f => Some (Function f)
  | None => Object_prototype own !! key
  end.
Arguments Object_prototype : simpl never.
Arguments get_member : simpl never.

(** [parseInt(s, 10)]: leading white space, an optional sign, then the
    longest run of decimal digits; [None] is NaN. White space is what
    [parseInt] strips, in a string held as UTF-8: the characters TAB to CR
    and the space, and the encodings of U+00A0, U+1680, U+2000 to U+200A,
    U+2028, U+2029, U+202F, U+205F, U+3000 and U+FEFF. *)
Definition is_space (c : ascii) : bool :=
  let n := nat_of_ascii c in
  ((9 <=? n) && (n <=? 13))%nat || (n =? 32)%nat.

Definition is_space2 (c1 c2 : ascii) : bool :=
  ((nat_of_ascii c1 =? 194) && (nat_of_ascii c2 =? 160))%nat.

Definition is_space3 (c1 c2 c3 : ascii) : bool :=
  let a := nat_of_ascii c1 in
  let b := nat_of_ascii c2 in
  let c := nat_of_ascii c3 in
  (((a =? 225) && (b =? 154) && (c =? 128))
   || ((a =? 226) && (b =? 128)
       && (((128 <=? c) && (c <=? 138)) || (c =? 168) || (c =? 169) || (c =? 175)))
   || ((a =? 226) && (b =? 129) && (c =? 159))
   || ((a =? 227) && (b =? 128) && (c =? 128))
   || ((a =? 239) && (b =? 187) && (c =? 191)))%nat.

Definition digit_of (c : ascii) : option Z :=
  let n := nat_of_ascii c in
  if ((48 <=? n) && (n <=? 57))%nat then Some (Z.of_nat n - 48) else None.

Fixpoint skip_spaces (s : string) : string :=
  match s with
  | String c1 rest1 =>
      if is_space c1 then skip_spaces rest1
      else
        match rest1 with
        | String c2 rest2 =>
            if is_space2 c1 c2 then skip_spaces rest2
            else
              match rest2 with
              | String c3 rest3 =>
                  if is_space3 c1 c2 c3 then skip_spaces rest3 else s
              | EmptyString => s
              end
        | EmptyString => s
        end
  | EmptyString => s
  end.

Fixpoint digits (s : string) (acc : option Z) : option Z :=
  match s with
  | String c rest =>
      match digit_of c with
      | Some d => digits rest (Some (10 * default 0 acc + d))
      | None => acc
      end
  | EmptyString => acc
  end.

Definition parseInt (s : string) : option Z :=
  match skip_spaces s with
  | String "-" rest => Z.opp <$> digits rest None
  | String "+" rest => digits rest None
  | s' => digits s' None
  end.

End Js.
Import Js.

(** ** A state and exception monad for synchronous code *)

Definition M (S A : Type) : Type := S -> Result A * S.

Definition ret {S A} (a : A) : M S A := fun s => (Ok a, s).
Definition throw {S A} (e : Error) : M S A := fun s => (Throw e, s).
Definition bind {S A B} (m : M S A) (k : A -> M S B) : M S B :=
  fun s => match m s with
           | (Ok a, s') => k a s'
           | (Throw e, s') => (Throw e, s')
           end.
Definition gets {S A} (f : S -> A) : M S A := fun s => (Ok (f s), s).
Definition modify {S} (f : S -> S) : M S unit := fun s => (Ok tt, f s).
Definition lift {S A} (r : Result A) : M S A := fun s => (r, s).

(** [try { body } catch (err) { handler err } finally { final }] *)
Definition try_catch_finally {S} (body : M S unit) (handler : Error -> M S unit)
    (final : M S unit) : M S unit :=
  fun s =>
    let (r, s1) := match body s with
                   | (Ok a, s') => (Ok a, s')
                   | (Throw e, s') => handler e s'
                   end in
    match final s1 with
    | (Ok _, s2) => (r, s2)
    | (Throw e, s2) => (Throw e, s2)
    end.

(** The promise of an [async] function body: a throw becomes a rejection. *)
Definition settle {S A} (body : M S A) : M S (Result A) :=
  fun s => let (r, s') := body s in (Ok r, s').

Declare Scope monad_scope.
Delimit Scope monad_scope with monad.
Notation "x <- m ;; k" := (bind m (fun x => k))
  (at level 100, m at next level, right associativity) : monad_scope.
Notation "m ;; k" := (bind m (fun _ => k))
  (at level 100, right associativity) : monad_scope.
Local Open Scope monad_scope.

(** ** Data model *)

(** Modelled from the spec: [src/snapshot.js], the [Snapshot] class that
    index.js requires, is not among the sources. The spec (section 3) gives
    its fields, [createdAt] as the time of construction and [age()] as the
    time elapsed since [createdAt], recomputed at each query. *)
Record Snapshot := {
  pageUrl : string;
  htmlContent : string;
  screenshotIndex : option Z;
  createdAt : Z;
}.

(** Modelled from the spec: [new Snapshot({ pageUrl, htmlContent,
    screenshotIndex })] of the missing [src/snapshot.js]; [createdAt] is
    the time of the construction (section 3). *)
Definition new_Snapshot (now : Z) (url html : string) (index : option Z) : Snapshot :=
  {| pageUrl := url; htmlContent := html; screenshotIndex := index; createdAt := now |}.

(** Modelled from the spec: [snapshot.age()] of the missing
    [src/snapshot.js], the time elapsed since [createdAt] (section 3). *)
Definition age (now : Z) (s : Snapshot) : Z := now - createdAt s.

Abbreviation Buffer := (list Byte.byte).
Abbreviation Handler := (value -> Result value).

Record Options := {
  opt_screenshotDirectoryPath : option string;
  opt_maxScreenshotFiles : option Z;
  opt_snapshotTimeoutSecs : option Z;
  opt_maxSnapshotFrequencySecs : option Z;
  opt_useScreenshots : option bool;
  opt_promptHandlers : option (gmap string Handler);
}.

Definition no_options : Options :=
  {| opt_screenshotDirectoryPath := None; opt_maxScreenshotFiles := None;
     opt_snapshotTimeoutSecs := None; opt_maxSnapshotFrequencySecs := None;
     opt_useScreenshots := None; opt_promptHandlers := None |}.

(** The process environment, and the constants of [apify-shared/consts]
    that index.js imports (they are not part of this repository). *)
Record Env := {
  process_env : gmap string string;
  CONTAINER_PORT : string;                 (* ENV_VARS.CONTAINER_PORT *)
  CONTAINER_URL : string;                  (* ENV_VARS.CONTAINER_URL *)
  LOCAL_STORAGE_DIR : string;              (* ENV_VARS.LOCAL_STORAGE_DIR *)
  LOCAL_ENV_VARS : gmap string string;
}.

(** The fields of a [LivecastServer] object. [promptHandlers] holds the own
    properties of the action to handler mapping, an object literal of
    functions (the default is [{}]); what the lookup
    [this.promptHandlers[key]] finds besides them is inherited from
    [Object.prototype] and given by [Js.get_member]. *)
Record Server := {
  screenshotDirectoryPath : string;
  maxScreenshotFiles : Z;
  snapshotTimeoutMillis : Z;
  maxSnapshotFrequencyMillis : Z;
  useScreenshots : bool;
  promptHandlers : gmap string Handler;
  lastSnapshot : option Snapshot;
  lastScreenshotIndex : Z;
  clientCount : Z;
  _isRunning : bool;
  httpServer : bool;                       (* false: null *)
  socketio : bool;                         (* false: null *)
  servingSnapshot : bool;
  port : option Z;                         (* None: not assigned, or NaN *)
  liveViewUrl : option string;
  resolveMessagePromise : option nat;      (* the prompt call it resolves *)
}.

Definition set_lastSnapshot (v : option Snapshot) (s : Server) : Server :=
  {| screenshotDirectoryPath := screenshotDirectoryPath s;
     maxScreenshotFiles := maxScreenshotFiles s;
     snapshotTimeoutMillis := snapshotTimeoutMillis s;
     maxSnapshotFrequencyMillis := maxSnapshotFrequencyMillis s;
     useScreenshots := useScreenshots s; promptHandlers := promptHandlers s;
     lastSnapshot := v;
     lastScreenshotIndex := lastScreenshotIndex s; clientCount := clientCount s;
     _isRunning := _isRunning s; httpServer := httpServer s; socketio := socketio s;
     servingSnapshot := servingSnapshot s; port := port s;
     liveViewUrl := liveViewUrl s;
     resolveMessagePromise := resolveMessagePromise s |}.

Definition set_lastScreenshotIndex (v : Z) (s : Server) : Server :=
  {| screenshotDirectoryPath := screenshotDirectoryPath s;
     maxScreenshotFiles := maxScreenshotFiles s;
     snapshotTimeoutMillis := snapshotTimeoutMillis s;
     maxSnapshotFrequencyMillis := maxSnapshotFrequencyMillis s;
     useScreenshots := useScreenshots s; promptHandlers := promptHandlers s;
     lastSnapshot := lastSnapshot s;
     lastScreenshotIndex := v; clientCount := clientCount s;
     _isRunning := _isRunning s; httpServer := httpServer s; socketio := socketio s;
     servingSnapshot := servingSnapshot s; port := port s;
     liveViewUrl := liveViewUrl s;
     resolveMessagePromise := resolveMessagePromise s |}.

Definition set_clientCount (v : Z) (s : Server) : Server :=
  {| screenshotDirectoryPath := screenshotDirectoryPath s;
     maxScreenshotFiles := maxScreenshotFiles s;
     snapshotTimeoutMillis := snapshotTimeoutMillis s;
     maxSnapshotFrequencyMillis := maxSnapshotFrequencyMillis s;
     useScreenshots := useScreenshots s; promptHandlers := promptHandlers s;
     lastSnapshot := lastSnapshot s;
     lastScreenshotIndex := lastScreenshotIndex s; clientCount := v;
     _isRunning := _isRunning s; httpServer := httpServer s; socketio := socketio s;
     servingSnapshot := servingSnapshot s; port := port s;
     liveViewUrl := liveViewUrl s;
     resolveMessagePromise := resolveMessagePromise s |}.

Definition set_servingSnapshot (v : bool) (s : Server) : Server :=
  {| screenshotDirectoryPath := screenshotDirectoryPath s;
     maxScreenshotFiles := maxScreenshotFiles s;
     snapshotTimeoutMillis := snapshotTimeoutMillis s;
     maxSnapshotFrequencyMillis := maxSnapshotFrequencyMillis s;
     useScreenshots := useScreenshots s; promptHandlers := promptHandlers s;
     lastSnapshot := lastSnapshot s;
     lastScreenshotIndex := lastScreenshotIndex s; clientCount := clientCount s;
     _isRunning := _isRunning s; httpServer := httpServer s; socketio := socketio s;
     servingSnapshot := v; port := port s;
     liveViewUrl := liveViewUrl s;
     resolveMessagePromise := resolveMessagePromise s |}.

Definition set_resolveMessagePromise (v : option nat) (s : Server) : Server :=
  {| screenshotDirectoryPath := screenshotDirectoryPath s;
     maxScreenshotFiles := maxScreenshotFiles s;
     snapshotTimeoutMillis := snapshotTimeoutMillis s;
     maxSnapshotFrequencyMillis := maxSnapshotFrequencyMillis s;
     useScreenshots := useScreenshots s; promptHandlers := promptHandlers s;
     lastSnapshot := lastSnapshot s;
     lastScreenshotIndex := lastScreenshotIndex s; clientCount := clientCount s;
     _isRunning := _isRunning s; httpServer := httpServer s; socketio := socketio s;
     servingSnapshot := servingSnapshot s; port := port s;
     liveViewUrl := liveViewUrl s;
     resolveMessagePromise := v |}.

Definition set_port (v : option Z) (s : Server) : Server :=
  {| screenshotDirectoryPath := screenshotDirectoryPath s;
     maxScreenshotFiles := maxScreenshotFiles s;
     snapshotTimeoutMillis := snapshotTimeoutMillis s;
     maxSnapshotFrequencyMillis := maxSnapshotFrequencyMillis s;
     useScreenshots := useScreenshots s; promptHandlers := promptHandlers s;
     lastSnapshot := lastSnapshot s;
     lastScreenshotIndex := lastScreenshotIndex s; clientCount := clientCount s;
     _isRunning := _isRunning s; httpServer := httpServer s; socketio := socketio s;
     servingSnapshot := servingSnapshot s; port := v;
     liveViewUrl := liveViewUrl s;
     resolveMessagePromise := resolveMessagePromise s |}.

(** Lines 291 to 313 of [_setupHttpServer]: the URL, the HTTP server with
    its express application, and the socket.io server. *)
Definition set_http (url : option string) (s : Server) : Server :=
  {| screenshotDirectoryPath := screenshotDirectoryPath s;
     maxScreenshotFiles := maxScreenshotFiles s;
     snapshotTimeoutMillis := snapshotTimeoutMillis s;
     maxSnapshotFrequencyMillis := maxSnapshotFrequencyMillis s;
     useScreenshots := useScreenshots s; promptHandlers := promptHandlers s;
     lastSnapshot := lastSnapshot s;
     lastScreenshotIndex := lastScreenshotIndex s; clientCount := clientCount s;
     _isRunning := _isRunning s; httpServer := true; socketio := true;
     servingSnapshot := servingSnapshot s; port := port s;
     liveViewUrl := url;
     resolveMessagePromise := resolveMessagePromise s |}.

(** ** Construction *)

(** The double quote, as a string. *)
Definition quote : string := String (ascii_of_nat 34) EmptyString.

(** [a || b] on strings that may be undefined: the empty string is falsy. *)
Definition or_else (a b : option string) : option string :=
  match a with
  | Some (String _ _) => a
  | _ => b
  end.

Definition in_port_range (p : option Z) : bool :=
  match p with
  | Some n => (0 <=? n) && (n <=? 65535)
  | None => false
  end.

(** Line 284; [None] is [undefined]. *)
Definition containerPort (env : Env) : option string :=
  or_else (process_env env !! CONTAINER_PORT env)
          (LOCAL_ENV_VARS env !! CONTAINER_PORT env).

Definition _setupHttpServer (env : Env) : M Server unit :=
  modify (set_port (containerPort env ≫= parseInt)) ;;
  p <- gets port ;;
  if negb (in_port_range p) then
    throw (JsError ("Cannot start LivecastServer - invalid port specified by the "
                    +:+ CONTAINER_PORT env +:+ " environment variable (was "
                    +:+ quote +:+ default "undefined" (containerPort env)
                    +:+ quote +:+ ")."))
  else
    modify (set_http (or_else (process_env env !! CONTAINER_URL env)
                              (LOCAL_ENV_VARS env !! CONTAINER_URL env))).

(** [path.resolve(dir, name)], up to the working directory and the
    normalisation of the path. *)
Definition path_resolve (dir name : string) : string := dir +:+ "/" +:+ name.

Definition DEFAULT_SCREENSHOT_DIR_PATH (env : Env) : string :=
  path_resolve
    (default EmptyString
       (or_else (process_env env !! LOCAL_STORAGE_DIR env) (Some EmptyString)))
    "live_view".

(** The assignments of the constructor, lines 75 to 104. *)
Definition fields (options : Options) (env : Env) : Server :=
  {| screenshotDirectoryPath :=
       default (DEFAULT_SCREENSHOT_DIR_PATH env) (opt_screenshotDirectoryPath options);
     maxScreenshotFiles := default 10 (opt_maxScreenshotFiles options);
     snapshotTimeoutMillis := default 3 (opt_snapshotTimeoutSecs options) * 1000;
     maxSnapshotFrequencyMillis := default 2 (opt_maxSnapshotFrequencySecs options) * 1000;
     useScreenshots := default false (opt_useScreenshots options);
     promptHandlers := default ∅ (opt_promptHandlers options);
     lastSnapshot := None;
     lastScreenshotIndex := 0;
     clientCount := 0;
     _isRunning := false;
     httpServer := false;
     socketio := false;
     servingSnapshot := false;
     port := None;
     liveViewUrl := None;
     resolveMessagePromise := None |}.

(** [new LivecastServer(options)]: the outcome and the object as the
    constructor left it. *)
Definition constructor (options : Options) (env : Env) : Result unit * Server :=
  _setupHttpServer env (fields options env).

(** ** The running server *)

Inductive Level := Debug | Info | Warning | Exception.

Inductive Payload :=
| PSnapshot (s : Snapshot)
| PValue (v : value).

(** What the code does to the outside, and the program points that the
    properties below speak about. [c] names an activation of
    [_makeSnapshot] and the [serve] call that started it, [p] an activation
    of [prompt]. *)
Inductive Effect :=
| ELog (level : Level) (message : string)     (* this.log.<level>(message, ...) *)
| EEmit (message : string) (data : Payload)   (* this.socketio.emit(message, data) *)
| EWrite (index : Z) (data : Buffer)          (* writeFile(path, data) has completed *)
| EUnlink (index : Z)                         (* unlink(path) is requested *)
| EIndex (c : nat) (index : option Z)         (* line 249: const screenshotIndex = ... *)
| ECaptured (c : nat) (s : Snapshot)          (* line 259: this.lastSnapshot = snapshot *)
| ESettled (c : nat) (r : Result Snapshot)    (* line 190: the await in serve is over *)
| EResolve (p : nat) (v : value)              (* line 336: this.resolveMessagePromise(data) *)
| EHandler (action : string) (v : value)      (* line 124: the function is invoked *)
| EPrompt (p : nat) (r : Result value)        (* the promise of a prompt call settles *)
| EUncaught (e : Error).                      (* an event handler threw *)

(** An activation of [_makeSnapshot] suspended at one of its two awaits. *)
Inductive Capture :=
| AwaitPage (url : string)                                      (* line 241 *)
| AwaitWrite (url html : string) (index : Z) (data : Buffer).   (* line 252 *)

Record Page := { page_url : string }.

Record World := {
  this : Server;
  clock : Z;                          (* the time the running handler reads *)
  captures : gmap nat Capture;        (* activations of _makeSnapshot *)
  waiting : option (nat * Z);         (* the serve call suspended in the timeout
                                         race: its capture, its timer's due time *)
  prompts : gset nat;                 (* prompt calls suspended on their promise *)
  files : gmap Z Buffer;              (* the screenshot directory, by index *)
  unlinks : list Z;                   (* unlink calls that have not completed *)
  next : nat;                         (* the next activation name *)
  effects : list Effect;              (* most recent first *)
}.

Definition with_this (f : Server -> Server) (w : World) : World :=
  {| this := f (this w); clock := clock w; captures := captures w;
     waiting := waiting w; prompts := prompts w; files := files w;
     unlinks := unlinks w; next := next w; effects := effects w |}.
Definition with_clock (f : Z -> Z) (w : World) : World :=
  {| this := this w; clock := f (clock w); captures := captures w;
     waiting := waiting w; prompts := prompts w; files := files w;
     unlinks := unlinks w; next := next w; effects := effects w |}.
Definition with_captures (f : gmap nat Capture -> gmap nat Capture) (w : World) : World :=
  {| this := this w; clock := clock w; captures := f (captures w);
     waiting := waiting w; prompts := prompts w; files := files w;
     unlinks := unlinks w; next := next w; effects := effects w |}.
Definition with_waiting (f : option (nat * Z) -> option (nat * Z)) (w : World) : World :=
  {| this := this w; clock := clock w; captures := captures w;
     waiting := f (waiting w); prompts := prompts w; files := files w;
     unlinks := unlinks w; next := next w; effects := effects w |}.
Definition with_prompts (f : gset nat -> gset nat) (w : World) : World :=
  {| this := this w; clock := clock w; captures := captures w;
     waiting := waiting w; prompts := f (prompts w); files := files w;
     unlinks := unlinks w; next := next w; effects := effects w |}.
Definition with_files (f : gmap Z Buffer -> gmap Z Buffer) (w : World) : World :=
  {| this := this w; clock := clock w; captures := captures w;
     waiting := waiting w; prompts := prompts w; files := f (files w);
     unlinks := unlinks w; next := next w; effects := effects w |}.
Definition with_unlinks (f : list Z -> list Z) (w : World) : World :=
  {| this := this w; clock := clock w; captures := captures w;
     waiting := waiting w; prompts := prompts w; files := files w;
     unlinks := f (unlinks w); next := next w; effects := effects w |}.
Definition with_next (f : nat -> nat) (w : World) : World :=
  {| this := this w; clock := clock w; captures := captures w;
     waiting := waiting w; prompts := prompts w; files := files w;
     unlinks := unlinks w; next := f (next w); effects := effects w |}.
Definition with_effects (f : list Effect -> list Effect) (w : World) : World :=
  {| this := this w; clock := clock w; captures := captures w;
     waiting := waiting w; prompts := prompts w; files := files w;
     unlinks := unlinks w; next := next w; effects := f (effects w) |}.

Definition effect (e : Effect) : M World unit := modify (with_effects (cons e)).
Definition log (l : Level) (message : string) : M World unit := effect (ELog l message).
Definition assign (f : Server -> Server) : M World unit := modify (with_this f).
Definition field {A} (f : Server -> A) : M World A := gets (fun w => f (this w)).
Definition fresh : M World nat :=
  n <- gets next ;; modify (with_next S) ;; ret n.

(** *** Observers *)

Definition hasClients (s : Server) : bool :=
  match lastSnapshot s with
  | Some _ => 0 <? clientCount s
  | None => true
  end.

Definition send (message : string) (data : Payload) : M World unit :=
  log Debug "Sending websocket message" ;;
  effect (EEmit message data).

(** *** Screenshots on disk *)

(** [path.join(dir, name)], up to the normalisation of the path. The
    screenshot with index [i] lives at [_getScreenshotPath i], and the model
    keeps the directory by index. *)
Definition path_join (dir name : string) : string := dir +:+ "/" +:+ name.

Definition _getScreenshotPath (s : Server) (screenshotIndex : Z) : string :=
  path_join (screenshotDirectoryPath s) (pretty screenshotIndex +:+ ".jpeg").

Definition _deleteScreenshot (screenshotIndex : Z) : M World unit :=
  effect (EUnlink screenshotIndex) ;;
  modify (with_unlinks (cons screenshotIndex)).

(** *** serve and the capture procedure *)

Definition _pushSnapshot (snapshot : Snapshot) : M World unit :=
  log Debug "Sending live view snapshot" ;;
  send "snapshot" (PSnapshot snapshot).

Definition timeout_error : Error :=
  JsError "LivecastServer: Serving of Live View timed out.".

(** [serve] from its [await] (line 190) on: [r] is how the promise of
    [addTimeoutToPromise] settled. *)
Definition serve_resume (c : nat) (r : Result Snapshot) : M World unit :=
  try_catch_finally
    (effect (ESettled c r) ;;
     snapshot <- lift r ;;
     _pushSnapshot snapshot)
    (fun err => log Exception "Serving of page for live view failed")
    (assign (set_servingSnapshot false)).

(** utils.js: [promise.then(resolve).catch(reject)] against the timer. The
    first to settle the outer promise wins; later attempts do nothing. *)
Definition race_settle (c : nat) (r : Result Snapshot) : M World unit :=
  w <- gets waiting ;;
  match w with
  | Some (c', _) =>
      if Nat.eqb c c' then modify (with_waiting (fun _ => None)) ;; serve_resume c r
      else ret tt
  | None => ret tt
  end.

Definition addTimeoutToPromise (c : nat) (timeoutMillis : Z) : M World unit :=
  now <- gets clock ;;
  modify (with_waiting (fun _ => Some (c, now + timeoutMillis))).

(** [_makeSnapshot] up to its first await (lines 239 to 247). *)
Definition _makeSnapshot (page : Page) : M World nat :=
  let pageUrl := page_url page in
  log Info "Making live view snapshot." ;;
  c <- fresh ;;
  modify (with_captures <[c := AwaitPage pageUrl]>) ;;
  ret c.

(** Lines 258 to 260, and the promise of [_makeSnapshot] resolving. *)
Definition _makeSnapshot_return (c : nat) (pageUrl htmlContent : string)
    (screenshotIndex : option Z) : M World unit :=
  now <- gets clock ;;
  let snapshot := new_Snapshot now pageUrl htmlContent screenshotIndex in
  assign (set_lastSnapshot (Some snapshot)) ;;
  effect (ECaptured c snapshot) ;;
  modify (with_captures (delete c)) ;;
  race_settle c (Ok snapshot).

(** Lines 249 to 252, once the page has answered. [useScreenshots] is
    assigned in the constructor only, so the tests of lines 243, 249 and 251
    agree; a screenshot is a Buffer, which is truthy. *)
Definition _makeSnapshot_page (c : nat) (pageUrl htmlContent : string)
    (screenshot : Buffer) : M World unit :=
  use <- field useScreenshots ;;
  if use : bool then
    i <- field lastScreenshotIndex ;;
    assign (set_lastScreenshotIndex (i + 1)) ;;
    effect (EIndex c (Some i)) ;;
    modify (with_captures <[c := AwaitWrite pageUrl htmlContent i screenshot]>)
  else
    effect (EIndex c None) ;;
    _makeSnapshot_return c pageUrl htmlContent None.

(** Lines 253 to 260, once [writeFile] has completed. *)
Definition _makeSnapshot_written (c : nat) (pageUrl htmlContent : string)
    (screenshotIndex : Z) (screenshot : Buffer) : M World unit :=
  modify (with_files <[screenshotIndex := screenshot]>) ;;
  effect (EWrite screenshotIndex screenshot) ;;
  max <- field maxScreenshotFiles ;;
  (if max - 1 <? screenshotIndex
   then _deleteScreenshot (screenshotIndex - max)
   else ret tt) ;;
  _makeSnapshot_return c pageUrl htmlContent (Some screenshotIndex).

(** A rejected await inside [_makeSnapshot] rejects its promise. *)
Definition _makeSnapshot_throw (c : nat) (err : Error) : M World unit :=
  modify (with_captures (delete c)) ;;
  race_settle c (Throw err).

Inductive Admission :=
| NoClients
| Busy
| Throttled
| Capturing (c : nat).

Definition throttled (now : Z) (s : Server) : bool :=
  match lastSnapshot s with
  | Some last => age now last <? maxSnapshotFrequencyMillis s
  | None => false
  end.

(** [serve] up to its [await]: the result tells which way it went. *)
Definition serve (page : Page) : M World Admission :=
  s <- gets this ;;
  if negb (hasClients s) then
    log Debug "Live view server has no clients, skipping snapshot." ;;
    ret NoClients
  else if servingSnapshot s then
    log Debug "Already serving a snapshot, not starting a new one." ;;
    ret Busy
  else
    now <- gets clock ;;
    if throttled now s then
      log Debug ("Snapshot was already served in less than "
                 +:+ pretty (maxSnapshotFrequencyMillis s) +:+ "ms.") ;;
      ret Throttled
    else
      assign (set_servingSnapshot true) ;;
      c <- _makeSnapshot page ;;
      addTimeoutToPromise c (snapshotTimeoutMillis s) ;;
      ret (Capturing c).

(** *** The prompt bridge *)

Definition handleResponse (response : value) : M World value :=
  action <- lift (get_action response) ;;
  key <- lift (property_key action) ;;
  handlers <- field promptHandlers ;;
  match get_member handlers key with
  | None =>
      log Warning "No handler for response action" ;;
      ret VUndefined
  | Some (Function handler) =>
      effect (EHandler key response) ;;
      lift (handler response)
  | Some NotCallable =>
      throw (TypeError "this.promptHandlers[response.action] is not a function")
  end.

(** [prompt] up to its [await]; the result names the suspended call. *)
Definition prompt (options : option value) : M World nat :=
  let options := default_param (VObj []) options in
  p <- fresh ;;
  assign (set_resolveMessagePromise (Some p)) ;;
  send "prompt" (PValue options) ;;
  log Debug "Waiting for frontend prompt response" ;;
  modify (with_prompts (union {[p]})) ;;
  ret p.

(** [prompt] from its [await] on (lines 115 and 116); the function has no
    [return] statement. *)
Definition prompt_resume (p : nat) (response : value) : M World unit :=
  r <- settle (log Debug "Response data." ;;
               handleResponse response ;;
               ret VUndefined) ;;
  effect (EPrompt p r).

(** The resolve function stored by [prompt]: it wakes the call it belongs
    to the first time it is applied. *)
Definition resolve_prompt (p : nat) (v : value) : M World unit :=
  effect (EResolve p v) ;;
  pending <- gets prompts ;;
  if decide (p ∈ pending) then
    modify (with_prompts (fun ps => ps ∖ {[p]})) ;;
    prompt_resume p v
  else ret tt.

(** *** Socket events (lines 320 to 345) *)

Definition on_connection : M World unit :=
  n <- field clientCount ;;
  assign (set_clientCount (n + 1)) ;;
  log Info "Live view client connected".

Definition on_disconnect : M World unit :=
  n <- field clientCount ;;
  assign (set_clientCount (n - 1)) ;;
  log Info "Live view client disconnected".

(** [parsed] is what [JSON.parse(`${data}`)] does for this [data]: its
    result, or [None] when it throws. *)
Definition on_promptAnswer (data : value) (parsed : option value) : M World unit :=
  log Debug "promptAnswer" ;;
  data <- match parsed with
          | Some v => ret v
          | None => log Debug "Failed to parse incoming message data" ;; ret data
          end ;;
  resolve <- field resolveMessagePromise ;;
  match resolve with
  | Some p => resolve_prompt p data
  | None => throw (TypeError "this.resolveMessagePromise is not a function")
  end.

Definition on_getLastSnapshot : M World unit :=
  last <- field lastSnapshot ;;
  match last with
  | Some snapshot =>
      log Debug "Sending live view snapshot" ;;
      send "snapshot" (PSnapshot snapshot)
  | None => ret tt
  end.

(** ** The event loop *)

Inductive Event :=
| Connection                                   (* a socket connects *)
| Disconnect                                   (* a connected socket goes away *)
| PromptAnswer (data : value) (parsed : option value)
| GetLastSnapshot
| CallServe (page : Page)                      (* the driver calls serve(page) *)
| CallPrompt (options : option value)          (* the automation calls prompt(options) *)
| PageResolved (c : nat) (htmlContent : string) (screenshot : Buffer)
| PageRejected (c : nat) (err : Error)
| WriteResolved (c : nat)
| WriteRejected (c : nat) (err : Error)
| TimerFired                                   (* the setTimeout of utils.js *)
| UnlinkResolved (index : Z)
| UnlinkRejected (index : Z) (err : Error).

Fixpoint remove_one (i : Z) (l : list Z) : list Z :=
  match l with
  | [] => []
  | j :: rest => if Z.eqb i j then rest else j :: remove_one i rest
  end.

Definition dispatch (ev : Event) : M World unit :=
  match ev with
  | Connection => on_connection
  | Disconnect => on_disconnect
  | PromptAnswer data parsed => on_promptAnswer data parsed
  | GetLastSnapshot => on_getLastSnapshot
  | CallServe page => serve page ;; ret tt
  | CallPrompt options => prompt options ;; ret tt
  | PageResolved c htmlContent screenshot =>
      cs <- gets captures ;;
      match cs !! c with
      | Some (AwaitPage pageUrl) => _makeSnapshot_page c pageUrl htmlContent screenshot
      | _ => ret tt
      end
  | WriteResolved c =>
      cs <- gets captures ;;
      match cs !! c with
      | Some (AwaitWrite pageUrl htmlContent i screenshot) =>
          _makeSnapshot_written c pageUrl htmlContent i screenshot
      | _ => ret tt
      end
  | PageRejected c err =>
      cs <- gets captures ;;
      match cs !! c with
      | Some (AwaitPage _) => _makeSnapshot_throw c err
      | _ => ret tt
      end
  | WriteRejected c err =>
      cs <- gets captures ;;
      match cs !! c with
      | Some (AwaitWrite _ _ _ _) => _makeSnapshot_throw c err
      | _ => ret tt
      end
  | TimerFired =>
      w <- gets waiting ;;
      now <- gets clock ;;
      match w with
      | Some (c, due) =>
          if due <=? now then
            modify (with_waiting (fun _ => None)) ;;
            serve_resume c (Throw timeout_error)
          else ret tt
      | None => ret tt
      end
  | UnlinkResolved i =>
      pending <- gets unlinks ;;
      if decide (i ∈ pending) then
        modify (with_unlinks (remove_one i)) ;;
        modify (with_files (delete i))
      else ret tt
  | UnlinkRejected i err =>
      pending <- gets unlinks ;;
      if decide (i ∈ pending) then
        modify (with_unlinks (remove_one i)) ;;
        log Exception "Cannot delete live view screenshot."
      else ret tt
  end.

(** One turn of the event loop at time [now]. *)
Definition step (w : World) (e : Z * Event) : World :=
  match dispatch e.2 (with_clock (fun _ => e.1) w) with
  | (Ok _, w') => w'
  | (Throw err, w') => with_effects (cons (EUncaught err)) w'
  end.

Definition exec (w : World) (trace : list (Z * Event)) : World :=
  fold_left step trace w.

(** Time does not run backwards. *)
Fixpoint chronological (now : Z) (trace : list (Z * Event)) : bool :=
  match trace with
  | [] => true
  | (t, _) :: rest => (now <=? t) && chronological t rest
  end.

(** The world around a freshly constructed server. *)
Definition boot (s : Server) (now : Z) : World :=
  {| this := s; clock := now; captures := ∅; waiting := None; prompts := ∅;
     files := ∅; unlinks := []; next := 0%nat; effects := [] |}.

(** ** Reading the effect trace *)

(** The indices assigned at line 249, most recent first. *)
Definition indices (l : list Effect) : list Z :=
  omap (fun e => match e with EIndex _ (Some i) => Some i | _ => None end) l.

(** The indices whose artifact has been written, most recent first. *)
Definition written (l : list Effect) : list Z :=
  omap (fun e => match e with EWrite i _ => Some i | _ => None end) l.

(** The indices whose deletion has been requested, most recent first. *)
Definition deletions (l : list Effect) : list Z :=
  omap (fun e => match e with EUnlink i => Some i | _ => None end) l.

(** What has been broadcast, most recent first. *)
Definition emitted (l : list Effect) : list (string * Payload) :=
  omap (fun e => match e with EEmit m d => Some (m, d) | _ => None end) l.

(** The snapshots that serve calls obtained from their capture and pushed. *)
Definition served (l : list Effect) : list Snapshot :=
  omap (fun e => match e with ESettled _ (Ok s) => Some s | _ => None end) l.

(** The activations of [_makeSnapshot] that assigned [lastSnapshot]. *)
Definition capturers (l : list Effect) : list nat :=
  omap (fun e => match e with ECaptured c _ => Some c | _ => None end) l.

(** ** Vocabulary of the properties *)

(** The container port is usable: it parses to an integer from 0 to 65535. *)
Definition valid_port (containerPort : option string) : Prop :=
  exists n, containerPort ≫= parseInt = Some n /\ 0 <= n <= 65535.

(** [serve] left through one of its three early returns. *)
Definition skipped (a : Admission) : Prop :=
  match a with
  | Capturing _ => False
  | _ => True
  end.

(** What an [async] function without a [return] statement hands back when
    its last call returned or threw [r]. *)
Definition undefined_after (r : Result value) : Result value :=
  match r with
  | Ok _ => Ok VUndefined
  | Throw e => Throw e
  end.

(** Snapshots, most recent first, each created at least [gap] after the
    one before it. *)
Fixpoint spaced (gap : Z) (l : list Snapshot) : Prop :=
  match l with
  | later :: (earlier :: _) as rest =>
      gap <= createdAt later - createdAt earlier /\ spaced gap rest
  | _ => True
  end.
Arguments spaced : simpl never.

(** A run of a constructed server: the events arrive in the order of
    their timestamps. *)
Definition run_of (options : Options) (env : Env) (now : Z)
    (trace : list (Z * Event)) (w : World) : Prop :=
  exists s, constructor options env = (Ok tt, s)
            /\ chronological now trace = true
            /\ w = exec (boot s now) trace.

(** *** Invariants of a run *)

(** The in-flight flag is set exactly while a [serve] call is suspended. *)
Definition flag_inv (w : World) : Prop :=
  servingSnapshot (this w) = true <-> is_Some (waiting w).

(** [lastSnapshot] is null exactly as long as no capture has completed. *)
Definition snapshot_inv (w : World) : Prop :=
  lastSnapshot (this w) = None <-> capturers (effects w) = [].

(** The only error that escapes an event handler is the one of an answer
    that arrives before any [prompt] call. *)
Definition uncaught_inv (w : World) : Prop :=
  forall e, EUncaught e ∈ effects w ->
            e = TypeError "this.resolveMessagePromise is not a function".

(** With screenshots enabled every capture that reaches line 249 is given
    an index. *)
Definition enabled_inv (w : World) : Prop :=
  useScreenshots (this w) = true ->
  Forall (fun eff => forall c, eff <> EIndex c None) (effects w).

(** The indices handed out so far are 0 up to the counter. *)
Definition index_inv (w : World) : Prop :=
  indices (effects w) = reverse (seqZ 0 (lastScreenshotIndex (this w)))
  /\ 0 <= lastScreenshotIndex (this w).

(** Deletions follow the writes, and the directory holds what was written
    and has not been deleted. *)
Definition retention_inv (w : World) : Prop :=
  let K := maxScreenshotFiles (this w) in
  deletions (effects w) =
    (fun i => i - K) <$> filter (fun i => K - 1 < i) (written (effects w))
  /\ (forall i, i ∈ dom (files w) -> i ∈ written (effects w))
  /\ (forall i, i ∈ written (effects w) -> i ∉ deletions (effects w) ->
                i ∈ dom (files w))
  /\ (forall i, i ∈ unlinks w -> i ∈ deletions (effects w)).

(** Names are fresh, a live capture has not assigned [lastSnapshot] yet,
    and the suspended [serve] call waits for a live capture. *)
Definition capture_inv (w : World) : Prop :=
  (forall c, c ∈ dom (captures w) -> (c < next w)%nat)
  /\ (forall c, c ∈ capturers (effects w) -> (c < next w)%nat)
  /\ (forall c, c ∈ dom (captures w) -> c ∉ capturers (effects w))
  /\ (forall c due, waiting w = Some (c, due) -> c ∈ dom (captures w)).

(** The served snapshots are spaced, none is younger than [lastSnapshot],
    and a capture is started only a full interval after the last of them. *)
Definition throttle_inv (w : World) : Prop :=
  let gap := maxSnapshotFrequencyMillis (this w) in
  spaced gap (served (effects w))
  /\ (forall s, s ∈ served (effects w) ->
        exists last, lastSnapshot (this w) = Some last
                     /\ createdAt s <= createdAt last)
  /\ (forall last, lastSnapshot (this w) = Some last -> createdAt last <= clock w)
  /\ (forall c due, waiting w = Some (c, due) ->
        forall s, s ∈ served (effects w) -> createdAt s + gap <= clock w).



(** Keeps the premises of a goal in place during symbolic execution. *)
Definition hold (P : Prop) : Prop := P.
Arguments hold : simpl never.

(** *** Sentences of the specification, as it states them *)

(** Section 4.5: [ask(options) -> response], the prompt call hands the
    response it was resumed with back to its caller. *)
Definition prompt_returns_response : Prop :=
  forall options env now trace w (p : nat) (response : value) (r : Result value),
    run_of options env now trace w ->
    EResolve p response ∈ effects w -> EPrompt p r ∈ effects w ->
    r = Ok response.


(** P6: a capture that lost the race against the timer never assigns
    [lastSnapshot]. *)
Definition timeout_discards_capture : Prop :=
  forall options env now trace w (c : nat),
    run_of options env now trace w ->
    ESettled c (Throw timeout_error) ∈ effects w ->
    c ∉ capturers (effects w).

(** ** The rest of the server: life cycle and screenshot retrieval *)

Definition set_isRunning (v : bool) (s : Server) : Server :=
  {| screenshotDirectoryPath := screenshotDirectoryPath s;
     maxScreenshotFiles := maxScreenshotFiles s;
     snapshotTimeoutMillis := snapshotTimeoutMillis s;
     maxSnapshotFrequencyMillis := maxSnapshotFrequencyMillis s;
     useScreenshots := useScreenshots s; promptHandlers := promptHandlers s;
     lastSnapshot := lastSnapshot s;
     lastScreenshotIndex := lastScreenshotIndex s; clientCount := clientCount s;
     _isRunning := v; httpServer := httpServer s; socketio := socketio s;
     servingSnapshot := servingSnapshot s; port := port s;
     liveViewUrl := liveViewUrl s;
     resolveMessagePromise := resolveMessagePromise s |}.

(** [start()], lines 132 to 142. The two operations it awaits belong to the
    environment: [ensureDir path] is how [fs.ensureDir] ends for the
    directory, [listen port] how the HTTP server's [listen] ends for the
    port ([Throw] is a rejection). The handlers that may run between the
    awaits neither read nor write [_isRunning]. *)
Definition start (ensureDir : string -> Result unit)
    (listen : option Z -> Result unit) : M World unit :=
  assign (set_isRunning true) ;;
  try_catch_finally
    (dir <- field screenshotDirectoryPath ;;
     lift (ensureDir dir) ;;
     p <- field port ;;
     lift (listen p) ;;
     log Info "Live view web server started")
    (fun err =>
       log Exception "Live view web server failed to start." ;;
       assign (set_isRunning false))
    (ret tt).

(** [stop()], lines 149 to 159. [close] is the error that the callback of
    [httpServer.close] receives, if any. *)
Definition stop (close : option Error) : M World unit :=
  http <- field httpServer ;;
  if http : bool then
    assign (set_isRunning false) ;;
    match close with
    | Some err => log Exception "Live view web server could not be stopped."
    | None => log Info "Live view web server stopped."
    end
  else throw (TypeError "Cannot read properties of null (reading 'unref')").

Definition isRunning (s : Server) : bool := _isRunning s.

(** [_getScreenshotPath] applied to a string, as the route of line 299
    applies it to [req.params.index]: the template literal leaves a string
    as it is. *)
Definition screenshot_file_path (s : Server) (index : string) : string :=
  path_join (screenshotDirectoryPath s) (index +:+ ".jpeg").

(** The screenshot directory under the paths of its files. *)
Definition disk (w : World) : gmap string Buffer :=
  kmap (_getScreenshotPath (this w)) (files w).

(** The route [/screenshot/:index], lines 299 to 303: the file found at the
    [filePath] that the route hands to [res.sendFile], [None] when there is
    none. What [sendFile] makes of the path is left to express. *)
Definition get_screenshot (w : World) (index : string) : option Buffer :=
  disk w !! screenshot_file_path (this w) index.

(** *** More readings of the effect trace *)

(** The snapshots assigned to [lastSnapshot], most recent first. *)
Definition captured (l : list Effect) : list Snapshot :=
  omap (fun e => match e with ECaptured _ s => Some s | _ => None end) l.

(** The [serve] calls whose await is over, most recent first. *)
Definition settled (l : list Effect) : list nat :=
  omap (fun e => match e with ESettled c _ => Some c | _ => None end) l.

(** The [prompt] calls whose promise has settled. *)
Definition prompt_settled (l : list Effect) : list nat :=
  omap (fun e => match e with EPrompt p _ => Some p | _ => None end) l.

(** The [prompt] calls whose resolve function has been applied. *)
Definition resolved (l : list Effect) : list nat :=
  omap (fun e => match e with EResolve p _ => Some p | _ => None end) l.

(** The handler invocations. *)
Definition handled (l : list Effect) : list (string * value) :=
  omap (fun e => match e with EHandler a v => Some (a, v) | _ => None end) l.

Definition latest (l : list Snapshot) : option Snapshot := head l.
Arguments latest : simpl never.

(** Connections minus disconnections. *)
Definition delta (ev : Event) : Z :=
  match ev with
  | Connection => 1
  | Disconnect => -1
  | _ => 0
  end.

Fixpoint balance (trace : list (Z * Event)) : Z :=
  match trace with
  | [] => 0
  | (_, ev) :: rest => delta ev + balance rest
  end.

(** *** More invariants of a run *)

(** A broadcast is a "snapshot" event with a snapshot that a capture
    constructed, or a "prompt" event with a value. *)
Definition from_capture (l : list Snapshot) (e : string * Payload) : Prop :=
  match e with
  | (message, PSnapshot s) => message = "snapshot" /\ s ∈ l
  | (message, PValue _) => message = "prompt"
  end.

(** [lastSnapshot] is the snapshot constructed last, and nothing else is
    ever broadcast as a snapshot. *)
Definition broadcast_inv (w : World) : Prop :=
  lastSnapshot (this w) = latest (captured (effects w))
  /\ Forall (from_capture (captured (effects w))) (emitted (effects w)).

(** A snapshot has an index exactly when screenshots are enabled, and then
    its artifact has been written. *)
Definition has_artifact (enabled : bool) (artifacts : list Z) (s : Snapshot) : Prop :=
  match screenshotIndex s with
  | Some i => enabled = true /\ i ∈ artifacts
  | None => enabled = false
  end.

Definition artifact_inv (w : World) : Prop :=
  (forall c url html i data,
     captures w !! c = Some (AwaitWrite url html i data) ->
     useScreenshots (this w) = true)
  /\ Forall (has_artifact (useScreenshots (this w)) (written (effects w)))
            (captured (effects w)).

(** The await of a [serve] call is over at most once, and not while the
    call is still suspended. *)
Definition settle_inv (w : World) : Prop :=
  NoDup (settled (effects w))
  /\ (forall c, c ∈ settled (effects w) -> (c < next w)%nat)
  /\ (forall c due, waiting w = Some (c, due) ->
        (c ∉ settled (effects w)) /\ (c < next w)%nat).

(** A [prompt] call settles at most once, after its resolve function was
    applied, and a handler runs only for a call that settles. *)
Definition prompt_inv (w : World) : Prop :=
  NoDup (prompt_settled (effects w))
  /\ (forall p, p ∈ prompts w ->
        (p ∉ prompt_settled (effects w)) /\ (p < next w)%nat)
  /\ (forall p, p ∈ prompt_settled (effects w) ->
        (p < next w)%nat /\ p ∈ resolved (effects w))
  /\ (length (handled (effects w)) <= length (prompt_settled (effects w)))%nat.

(** What the directory holds under an index is what was last written
    under it. *)
Definition files_inv (w : World) : Prop :=
  forall i data, files w !! i = Some data -> EWrite i data ∈ effects w.

(** The options of the [prompt] calls so far, most recent first. *)
Definition prompted (l : list Effect) : list value :=
  omap (fun e => match e with EEmit _ (PValue v) => Some v | _ => None end) l.

(** [resolveMessagePromise] is undefined exactly until the first [prompt]
    call. *)
Definition resolver_inv (w : World) : Prop :=
  resolveMessagePromise (this w) = None <-> prompted (effects w) = [].

(** The [prompt] call [p] waits and its resolve function is lost: a later
    call has stored its own. *)
Definition orphan (p : nat) (w : World) : Prop :=
  p ∈ prompts w
  /\ resolveMessagePromise (this w) <> Some p
  /\ (p < next w)%nat
  /\ p ∉ prompt_settled (effects w).

(** *** More sentences of the specification, as it states them *)


(** I2: successive successful captures lie at least the minimum interval
    apart, by [createdAt]. *)
Definition captures_spaced : Prop :=
  forall options env now trace w,
    run_of options env now trace w ->
    spaced (maxSnapshotFrequencyMillis (this w)) (captured (effects w)).

(** I1 and section 4.2: a [serve] call that arrives while a capture is in
    flight returns at once and starts no second capture. *)
Definition one_capture_in_flight : Prop :=
  forall options env now trace w (page : Page) (t : Z),
    run_of options env now trace w -> captures w <> ∅ ->
    exists a, (serve page (with_clock (fun _ => t) w)).1 = Ok a /\ skipped a.

(** *** Deletions that are carried out *)



(** The event of a capture suspended at [k] seeing its await rejected. *)
Definition rejected (k : Capture) (c : nat) (err : Error) : Event :=
  match k with
  | AwaitPage _ => PageRejected c err
  | AwaitWrite _ _ _ _ => WriteRejected c err
  end.

(** ** Concrete servers and runs *)

(** A local run: no variable is set in the process environment, and the
    defaults of apify-shared apply. *)
Definition local_env : Env :=
  {| process_env := ∅;
     CONTAINER_PORT := "APIFY_CONTAINER_PORT";
     CONTAINER_URL := "APIFY_CONTAINER_URL";
     LOCAL_STORAGE_DIR := "APIFY_LOCAL_STORAGE_DIR";
     LOCAL_ENV_VARS := {[ "APIFY_CONTAINER_PORT" := "4321";
                          "APIFY_CONTAINER_URL" := "http://localhost:4321" ]} |}.

Definition bad_env : Env :=
  {| process_env := {[ "APIFY_CONTAINER_PORT" := "70000" ]};
     CONTAINER_PORT := "APIFY_CONTAINER_PORT";
     CONTAINER_URL := "APIFY_CONTAINER_URL";
     LOCAL_STORAGE_DIR := "APIFY_LOCAL_STORAGE_DIR";
     LOCAL_ENV_VARS := {[ "APIFY_CONTAINER_PORT" := "4321";
                          "APIFY_CONTAINER_URL" := "http://localhost:4321" ]} |}.

(** [new LivecastServer()] *)
Definition plain_server : Server :=
  Eval vm_compute in (constructor no_options local_env).2.

(** [new LivecastServer({ useScreenshots: true, maxScreenshotFiles: 2 })] *)
Definition screenshot_options : Options :=
  {| opt_screenshotDirectoryPath := None; opt_maxScreenshotFiles := Some 2;
     opt_snapshotTimeoutSecs := None; opt_maxSnapshotFrequencySecs := None;
     opt_useScreenshots := Some true; opt_promptHandlers := None |}.
Definition screenshot_server : Server :=
  Eval vm_compute in (constructor screenshot_options local_env).2.

(** [new LivecastServer({ promptHandlers: { ok: (response) => response } })] *)
Definition ok_handlers : gmap string Handler := {[ "ok" := (fun response => Ok response) ]}.
Definition prompt_options : Options :=
  {| opt_screenshotDirectoryPath := None; opt_maxScreenshotFiles := None;
     opt_snapshotTimeoutSecs := None; opt_maxSnapshotFrequencySecs := None;
     opt_useScreenshots := None; opt_promptHandlers := Some ok_handlers |}.
Definition prompt_server : Server :=
  Eval vm_compute in (constructor prompt_options local_env).2.

Definition example_page : Page := {| page_url := "https://www.example.com" |}.
Definition ok_answer : value := VObj [("action", VStr "ok"); ("x", VNum 1)].
Definition toString_answer : value := VObj [("action", VStr "toString")].

(** The first capture, with nobody watching. *)
Definition first_capture : list (Z * Event) :=
  [(0, CallServe example_page); (250, PageResolved 0 "<html></html>" [])].

(** A capture that outlives its timeout: [serve] at 0, the timer at 3000,
    the page content at 3500. *)
Definition late_capture : list (Z * Event) :=
  [(0, CallServe example_page); (3000, TimerFired);
   (3500, PageResolved 0 "<html></html>" [])].

(** A prompt answered by a front end that emits the object [ok_answer]
    itself: the template string is then [[object Object]], [JSON.parse]
    throws, and the handler goes on with the data as it came. *)
Definition answered_prompt : list (Z * Event) :=
  [(0, CallPrompt (Some (VObj [("x", VNum 1)])));
   (900, PromptAnswer ok_answer None)].

(** The scenario of section 8 of the specification, as far as its third
    call: an observer is present, [serve] at 0 with a capture that takes no
    time, [serve] at 500, [serve] at 2100. *)
Definition spec_scenario : list (Z * Event) :=
  [(0, Connection);
   (0, CallServe example_page); (0, PageResolved 0 "<html>0</html>" []);
   (0, WriteResolved 0);
   (500, CallServe example_page);
   (2100, CallServe example_page); (2100, PageResolved 1 "<html>1</html>" []);
   (2100, WriteResolved 1)].

(** Three captures with screenshots, two seconds and more apart. *)
Definition three_captures : list (Z * Event) :=
  [(0, Connection);
   (10, CallServe example_page); (300, PageResolved 0 "<html>0</html>" []);
   (310, WriteResolved 0);
   (2400, CallServe example_page); (2700, PageResolved 1 "<html>1</html>" []);
   (2710, WriteResolved 1);
   (4800, CallServe example_page); (5100, PageResolved 2 "<html>2</html>" []);
   (5110, WriteResolved 2)].


(** A capture that outlives its timeout beside the capture of the next
    [serve] call: [serve] at 0, the timer at 3000, [serve] again at 3100, the
    first page content at 3200, a client asking at 3250, the second page
    content at 3300. *)
Definition crowded_captures : list (Z * Event) :=
  [(0, Connection);
   (0, CallServe example_page); (3000, TimerFired);
   (3100, CallServe example_page);
   (3200, PageResolved 0 "<html>a</html>" []);
   (3250, GetLastSnapshot);
   (3300, PageResolved 1 "<html>b</html>" [])].

(* THEOREMS *)

(** * Properties *)

Local Set Warnings "-clear-no-such-hyp".

Create HintDb livecast discriminated.
#[local] Hint Unfold bind ret throw gets modify lift settle try_catch_finally
  effect log assign field fresh : livecast.
#[local] Hint Unfold send _deleteScreenshot _pushSnapshot serve_resume race_settle
  addTimeoutToPromise _makeSnapshot _makeSnapshot_return _makeSnapshot_page
  _makeSnapshot_written _makeSnapshot_throw serve handleResponse prompt
  prompt_resume resolve_prompt on_connection on_disconnect on_promptAnswer
  on_getLastSnapshot : livecast.

(** Unfold a stretch of code down to the state it builds. *)
Ltac run := autounfold with livecast; simpl.

(** Symbolic execution of one turn of the event loop: every test the code
    makes becomes a case, with its outcome recorded as a hypothesis. *)
Ltac split_step :=
  unfold step, dispatch; simpl;
  repeat (first
    [ progress (autounfold with livecast; simpl)
    | match goal with
      | |- context [match ?x with _ => _ end] =>
          lazymatch x with
          | context [match _ with _ => _ end] => fail
          | _ => case_eq x; intros; simpl
          end
      end ]).

(** Boolean tests of the code, read as propositions. *)
Ltac tests :=
  repeat match goal with
         | H : (_ <? _) = true |- _ => apply Z.ltb_lt in H
         | H : (_ <? _) = false |- _ => apply Z.ltb_ge in H
         | H : (_ <=? _) = true |- _ => apply Z.leb_le in H
         | H : (_ <=? _) = false |- _ => apply Z.leb_gt in H
         | H : (_ =? _)%nat = true |- _ => apply Nat.eqb_eq in H
         | H : (_ =? _)%nat = false |- _ => apply Nat.eqb_neq in H
         end.

(** Membership in a list that is written out. *)
Ltac in_list :=
  repeat first [ apply list_elem_of_here | apply list_elem_of_further ].

(** ** Runs *)

Lemma step_clock (w : World) (t : Z) (ev : Event) : clock (step w (t, ev)) = t.
Proof. destruct ev; split_step; reflexivity. Qed.

Lemma exec_preserves (I : World -> Prop) :
  (forall w t ev, I w -> clock w <= t -> I (step w (t, ev))) ->
  forall trace w, I w -> chronological (clock w) trace = true -> I (exec w trace).
Proof.
  intros Hstep trace. induction trace as [| [t ev] trace IH]; intros w Hw Hc.
  - exact Hw.
  - simpl in Hc. apply andb_true_iff in Hc as [Ht Hc]. apply Z.leb_le in Ht.
    simpl. apply IH.
    + apply Hstep; assumption.
    + rewrite step_clock. exact Hc.
Qed.

(** The constructor either throws or returns the assignments of lines 75
    to 104 with the port and the servers filled in. *)
Lemma constructor_ok (options : Options) (env : Env) (s : Server) :
  constructor options env = (Ok tt, s) ->
  s = set_http (or_else (process_env env !! CONTAINER_URL env)
                        (LOCAL_ENV_VARS env !! CONTAINER_URL env))
        (set_port (containerPort env ≫= parseInt) (fields options env)).
Proof.
  unfold constructor, _setupHttpServer. run.
  destruct (in_port_range (containerPort env ≫= parseInt)); simpl.
  - intros [= <-]. reflexivity.
  - discriminate.
Qed.

(** The configuration is not touched after construction. *)
Lemma step_config (w : World) (t : Z) (ev : Event) :
  maxScreenshotFiles (this (step w (t, ev))) = maxScreenshotFiles (this w)
  /\ maxSnapshotFrequencyMillis (this (step w (t, ev)))
     = maxSnapshotFrequencyMillis (this w)
  /\ useScreenshots (this (step w (t, ev))) = useScreenshots (this w).
Proof. destruct ev; split_step; auto. Qed.

Lemma exec_config (trace : list (Z * Event)) (w : World) :
  maxScreenshotFiles (this (exec w trace)) = maxScreenshotFiles (this w)
  /\ maxSnapshotFrequencyMillis (this (exec w trace))
     = maxSnapshotFrequencyMillis (this w)
  /\ useScreenshots (this (exec w trace)) = useScreenshots (this w).
Proof.
  revert w. induction trace as [| [t ev] trace IH]; intros w; [auto |].
  simpl. destruct (IH (step w (t, ev))) as (-> & -> & ->). apply step_config.
Qed.

(** A property that holds at boot and that every turn preserves holds
    throughout every run. *)
Lemma run_invariant (I : World -> Prop) :
  (forall options env s now, constructor options env = (Ok tt, s) -> I (boot s now)) ->
  (forall w t ev, I w -> clock w <= t -> I (step w (t, ev))) ->
  forall options env now trace w, run_of options env now trace w -> I w.
Proof.
  intros Hboot Hstep options env now trace w (s & Hs & Hc & ->).
  apply exec_preserves; [exact Hstep | eapply Hboot; eassumption | exact Hc].
Qed.

(** ** Every turn of the event loop preserves the invariants *)

Lemma step_flag (w : World) (t : Z) (ev : Event) :
  flag_inv w -> flag_inv (step w (t, ev)).
Proof.
  unfold flag_inv. intros H. destruct ev.
  all: split_step.
  all: try assumption.
  all: rewrite <- ?not_eq_None_Some in *.
  all: split; intros; try congruence; try discriminate.
  all: try (intuition congruence).
Qed.

Lemma step_snapshot (w : World) (t : Z) (ev : Event) :
  snapshot_inv w -> snapshot_inv (step w (t, ev)).
Proof.
  unfold snapshot_inv. intros H. destruct ev.
  all: split_step.
  all: try assumption.
  all: split; discriminate.
Qed.

Lemma uncaught_Forall (w : World) :
  uncaught_inv w <->
  Forall (fun eff => forall e, eff = EUncaught e ->
                     e = TypeError "this.resolveMessagePromise is not a function")
         (effects w).
Proof.
  unfold uncaught_inv. rewrite Forall_forall. split.
  - intros H eff Hin e ->. apply H, Hin.
  - intros H e Hin. exact (H _ Hin e eq_refl).
Qed.

Lemma step_uncaught (w : World) (t : Z) (ev : Event) :
  uncaught_inv w -> uncaught_inv (step w (t, ev)).
Proof.
  rewrite !uncaught_Forall. intros H. destruct ev.
  all: split_step.
  all: repeat (apply Forall_cons; split; [intros ? [= <-]; reflexivity |]).
  all: repeat (apply Forall_cons; split; [intros ? [=] |]).
  all: assumption.
Qed.

Lemma step_enabled (w : World) (t : Z) (ev : Event) :
  enabled_inv w -> enabled_inv (step w (t, ev)).
Proof.
  unfold enabled_inv. intros H Hu.
  destruct (step_config w t ev) as (_ & _ & Hc). rewrite Hc in Hu.
  specialize (H Hu). clear Hc. destruct ev.
  all: split_step.
  all: try assumption.
  all: try congruence.
  all: repeat (apply Forall_cons; split; [intros ? [=] |]).
  all: assumption.
Qed.

Lemma seqZ_snoc (n : Z) :
  0 <= n -> reverse (seqZ 0 (n + 1)) = n :: reverse (seqZ 0 n).
Proof.
  intros H. rewrite seqZ_app by lia. rewrite reverse_app.
  rewrite (seqZ_cons (0 + n)) by lia. rewrite seqZ_nil by lia. reflexivity.
Qed.

Lemma step_index (w : World) (t : Z) (ev : Event) :
  index_inv w -> index_inv (step w (t, ev)).
Proof.
  unfold index_inv. intros [H H0]. destruct ev.
  all: split_step.
  all: try (split; assumption).
  split; [| lia]. rewrite seqZ_snoc by assumption. congruence.
Qed.

Lemma elem_of_remove_one (i j : Z) (l : list Z) : i ∈ remove_one j l -> i ∈ l.
Proof.
  induction l as [| k l IH]; simpl; [auto |].
  destruct (Z.eqb j k); rewrite ?elem_of_cons; intuition.
Qed.

Lemma step_retention (w : World) (t : Z) (ev : Event) :
  retention_inv w -> retention_inv (step w (t, ev)).
Proof.
  unfold retention_inv. intros (Hd & Hf & Hw & Hu). destruct ev.
  all: split_step.
  all: try (repeat split; assumption).
  all: tests.
  all: rewrite ?filter_cons_True, ?filter_cons_False, ?fmap_cons by lia.
  all: repeat split; try congruence.
  all: try (intros i Hi; apply elem_of_remove_one in Hi; auto).
  all: set_solver.
Qed.

Lemma step_capture (w : World) (t : Z) (ev : Event) :
  capture_inv w -> capture_inv (step w (t, ev)).
Proof.
  unfold capture_inv. intros (Hc & He & Hn & Hw). destruct ev.
  all: split_step.
  all: try (repeat split; assumption).
  all: tests; subst.
  all: repeat match goal with
       | H : captures _ !! _ = Some _ |- _ =>
           apply (elem_of_dom_2 (D := gset nat)) in H
       end.
  all: repeat split.
  all: lazymatch goal with
       | |- forall c due, _ = Some (c, due) -> _ =>
           intros c' due' Hq; simplify_eq;
           rewrite ?dom_insert, ?dom_delete, ?elem_of_union, ?elem_of_difference,
                   ?elem_of_singleton;
           first [ solve [eauto] | split; [solve [eauto] | congruence] ]
       | |- forall c, _ -> _ =>
           intros c'; specialize (Hc c'); specialize (He c'); specialize (Hn c');
           rewrite ?dom_insert, ?dom_delete, ?elem_of_cons, ?elem_of_union,
                   ?elem_of_difference, ?elem_of_singleton in *;
           try (intuition (subst; eauto; lia))
       end.
Qed.

Lemma spaced_cons (gap : Z) (s : Snapshot) (l : list Snapshot) :
  spaced gap l -> (forall s', s' ∈ l -> createdAt s' + gap <= createdAt s) ->
  spaced gap (s :: l).
Proof.
  intros Hl Hs. destruct l as [| s' l]; [exact I |].
  change (spaced gap (s :: s' :: l))
    with (gap <= createdAt s - createdAt s' /\ spaced gap (s' :: l)).
  split; [| exact Hl]. specialize (Hs s'). rewrite elem_of_cons in Hs.
  specialize (Hs (or_introl eq_refl)). lia.
Qed.

Lemma step_throttle (w : World) (t : Z) (ev : Event) :
  throttle_inv w -> clock w <= t -> throttle_inv (step w (t, ev)).
Proof.
  unfold throttle_inv. intros (Hs & Hl & Hk & Hw) Ht. destruct ev.
  all: split_step.
  all: tests; subst; repeat split.
  all: lazymatch goal with
       | |- spaced _ _ =>
           first [ exact Hs
                 | apply spaced_cons; [exact Hs |];
                   intros s' Hs'; simpl;
                   match goal with
                   | Hq : waiting _ = Some _ |- _ =>
                       specialize (Hw _ _ Hq _ Hs'); lia
                   end ]
       | |- forall s, s ∈ _ -> exists _, _ =>
           intros s' Hs';
           first [ exact (Hl _ Hs')
                 | eexists; split; [reflexivity |]; simpl;
                   rewrite ?elem_of_cons in Hs';
                   repeat match goal with
                          | H : _ \/ _ |- _ => destruct H as [-> | H]
                          end;
                   simpl; try lia;
                   destruct (Hl _ Hs') as (l0 & Hl0 & Hle);
                   specialize (Hk _ Hl0); lia ]
       | |- forall last, _ = Some last -> _ =>
           intros l0 Hl0;
           first [ specialize (Hk _ Hl0); lia
                 | injection Hl0 as <-; simpl; lia ]
       | |- forall c due, _ = Some (c, due) -> _ =>
           intros c' due' Hq s' Hs';
           first [ discriminate Hq
                 | specialize (Hw _ _ Hq _ Hs'); lia
                 | match goal with
                   | Hth : throttled _ _ = false |- _ =>
                       unfold throttled, age in Hth;
                       destruct (Hl _ Hs') as (l0 & Hl0 & Hle);
                       rewrite Hl0 in Hth; apply Z.ltb_ge in Hth; lia
                   end ]
       end.
Qed.


(** ** The invariants hold throughout every run *)

Ltac at_boot :=
  let H := fresh in
  intros ? ? ? ? H; apply constructor_ok in H; subst; hnf; simpl.

Lemma run_flag options env now trace w :
  run_of options env now trace w -> flag_inv w.
Proof.
  apply (run_invariant flag_inv); [| intros; apply step_flag; assumption].
  at_boot. split; [discriminate | intros [? [=]]].
Qed.

Lemma run_snapshot options env now trace w :
  run_of options env now trace w -> snapshot_inv w.
Proof.
  apply (run_invariant snapshot_inv); [| intros; apply step_snapshot; assumption].
  at_boot. split; reflexivity.
Qed.

Lemma run_uncaught options env now trace w :
  run_of options env now trace w -> uncaught_inv w.
Proof.
  apply (run_invariant uncaught_inv); [| intros; apply step_uncaught; assumption].
  at_boot. intros e He. inversion He.
Qed.

Lemma run_enabled options env now trace w :
  run_of options env now trace w -> enabled_inv w.
Proof.
  apply (run_invariant enabled_inv); [| intros; apply step_enabled; assumption].
  at_boot. intros _. constructor.
Qed.

Lemma run_index options env now trace w :
  run_of options env now trace w -> index_inv w.
Proof.
  apply (run_invariant index_inv); [| intros; apply step_index; assumption].
  at_boot. split; [reflexivity | lia].
Qed.

Lemma run_retention options env now trace w :
  run_of options env now trace w -> retention_inv w.
Proof.
  apply (run_invariant retention_inv); [| intros; apply step_retention; assumption].
  at_boot. repeat split; set_solver.
Qed.

Lemma run_capture options env now trace w :
  run_of options env now trace w -> capture_inv w.
Proof.
  apply (run_invariant capture_inv); [| intros; apply step_capture; assumption].
  at_boot. repeat split; try set_solver; discriminate.
Qed.

Lemma run_throttle options env now trace w :
  run_of options env now trace w -> throttle_inv w.
Proof.
  apply (run_invariant throttle_inv); [| intros; apply step_throttle; assumption].
  at_boot. repeat split; try set_solver; try discriminate.
Qed.


(** ** Concrete runs *)

Lemma plain_server_constructed :
  constructor no_options local_env = (Ok tt, plain_server).
Proof. vm_compute. reflexivity. Qed.

Lemma screenshot_server_constructed :
  constructor screenshot_options local_env = (Ok tt, screenshot_server).
Proof. vm_compute. reflexivity. Qed.

Lemma prompt_server_constructed :
  constructor prompt_options local_env = (Ok tt, prompt_server).
Proof. vm_compute. reflexivity. Qed.

Lemma plain_run (trace : list (Z * Event)) :
  chronological 0 trace = true ->
  run_of no_options local_env 0 trace (exec (boot plain_server 0) trace).
Proof. intros H. exists plain_server. auto using plain_server_constructed. Qed.

Lemma screenshot_run (trace : list (Z * Event)) :
  chronological 0 trace = true ->
  run_of screenshot_options local_env 0 trace (exec (boot screenshot_server 0) trace).
Proof. intros H. exists screenshot_server. auto using screenshot_server_constructed. Qed.

Lemma prompt_run (trace : list (Z * Event)) :
  chronological 0 trace = true ->
  run_of prompt_options local_env 0 trace (exec (boot prompt_server 0) trace).
Proof. intros H. exists prompt_server. auto using prompt_server_constructed. Qed.

(** The scenario of the specification: the first call yields the snapshot
    with index 0, the call at 500 is throttled, the call at 2100 yields the
    snapshot with index 1, and artifact 0 is still there. *)
Example spec_scenario_runs :
  let w := exec (boot screenshot_server 0) spec_scenario in
  (screenshotIndex <$> served (effects w)) = [Some 1; Some 0]
  /\ (createdAt <$> served (effects w)) = [2100; 0]
  /\ ELog Debug "Snapshot was already served in less than 2000ms." ∈ effects w
  /\ dom (files w) = {[0; 1]}
  /\ deletions (effects w) = [].
Proof. cbv zeta. repeat split; vm_compute; try reflexivity; in_list. Qed.

(** ** Construction *)

Lemma in_port_range_valid (containerPort : option string) :
  in_port_range (containerPort ≫= parseInt) = true <-> valid_port containerPort.
Proof.
  unfold valid_port, in_port_range. destruct (containerPort ≫= parseInt) as [n|].
  - rewrite andb_true_iff, !Z.leb_le. split.
    + intros H. exists n. auto.
    + intros (m & [= <-] & H). exact H.
  - split; [discriminate | intros (m & [=] & _)].
Qed.

(** C9. The constructor throws exactly when the container port (the
    environment variable, or the local default when it is unset or empty)
    does not parse to an integer from 0 to 65535; it then leaves the object
    without HTTP server and without socket server. With a valid port it
    returns normally, the port stored and both servers set up. *)
Theorem constructor_port (options : Options) (env : Env) :
  let r := constructor options env in
  (~ valid_port (containerPort env) ->
     (exists e, r.1 = Throw e) /\ httpServer r.2 = false /\ socketio r.2 = false)
  /\ (valid_port (containerPort env) ->
     r.1 = Ok tt /\ httpServer r.2 = true /\ socketio r.2 = true
     /\ port r.2 = containerPort env ≫= parseInt).
Proof.
  unfold constructor, _setupHttpServer. run.
  destruct (in_port_range (containerPort env ≫= parseInt)) eqn:E; simpl.
  - apply in_port_range_valid in E. split; [tauto | auto].
  - split; [eauto |]. intros V. apply in_port_range_valid in V. congruence.
Qed.

Lemma constructor_port_witness :
  (exists e, (constructor no_options bad_env).1 = Throw e)
  /\ (constructor no_options local_env).1 = Ok tt.
Proof.
  split.
  - apply (constructor_port no_options bad_env).
    intros (n & H & Hn). vm_compute in H. injection H as <-. lia.
  - apply (constructor_port no_options local_env).
    exists 4321. split; [reflexivity | lia].
Defined.

(** ** Observers and admission *)

(** C5. [hasClients] answers true exactly when a client is connected or no
    snapshot has been produced yet ([lastSnapshot] is still null, which in a
    run means that no capture has completed). With no client and no
    snapshot [serve] passes the observer check: it starts a capture, unless
    one is in flight. With no client and a snapshot it returns at once. *)
Theorem hasClients_bootstrap options env now trace w (page : Page) :
  run_of options env now trace w ->
  (lastSnapshot (this w) = None <-> capturers (effects w) = [])
  /\ (hasClients (this w) = true <->
        0 < clientCount (this w) \/ lastSnapshot (this w) = None)
  /\ (clientCount (this w) = 0 -> lastSnapshot (this w) = None ->
      (serve page w).1 =
        Ok (if servingSnapshot (this w) then Busy else Capturing (next w)))
  /\ (clientCount (this w) = 0 -> lastSnapshot (this w) <> None ->
      serve page w =
        (Ok NoClients,
         with_effects
           (cons (ELog Debug "Live view server has no clients, skipping snapshot.")) w)).
Proof.
  intros Hrun. split; [exact (run_snapshot _ _ _ _ _ Hrun) |]. clear Hrun.
  split; [| split].
  - unfold hasClients. destruct (lastSnapshot (this w)).
    + rewrite Z.ltb_lt. split; [auto | intros [H | H]; [exact H | discriminate]].
    + split; auto.
  - intros _ Hl. run. unfold hasClients, throttled. rewrite Hl. simpl.
    destruct (servingSnapshot (this w)); reflexivity.
  - intros Hc Hl. run. unfold hasClients. rewrite Hc.
    destruct (lastSnapshot (this w)); [reflexivity | congruence].
Qed.

Lemma hasClients_bootstrap_witness :
  (serve example_page (boot plain_server 0)).1 = Ok (Capturing 0)
  /\ (serve example_page (exec (boot plain_server 0) first_capture)).1 = Ok NoClients.
Proof.
  split.
  - apply (hasClients_bootstrap no_options local_env 0 [] (boot plain_server 0)
             example_page (plain_run [] eq_refl)); vm_compute; reflexivity.
  - pose proof (hasClients_bootstrap no_options local_env 0 first_capture
                  (exec (boot plain_server 0) first_capture) example_page
                  (plain_run first_capture eq_refl)) as (_ & _ & _ & H).
    rewrite H; [reflexivity | vm_compute; reflexivity | vm_compute; discriminate].
Defined.

(** C10. When [serve] leaves through one of its three early returns, the
    object is as it was (in particular [lastSnapshot], [lastScreenshotIndex],
    [servingSnapshot] and [clientCount]), the screenshot directory and the
    pending deletions are as they were, no capture was started, nothing was
    written, deleted or broadcast: one debug line was logged. *)
Theorem serve_skip_frame (w w' : World) (page : Page) (a : Admission) :
  serve page w = (Ok a, w') -> skipped a ->
  lastSnapshot (this w') = lastSnapshot (this w)
  /\ lastScreenshotIndex (this w') = lastScreenshotIndex (this w)
  /\ servingSnapshot (this w') = servingSnapshot (this w)
  /\ clientCount (this w') = clientCount (this w)
  /\ this w' = this w
  /\ files w' = files w /\ unlinks w' = unlinks w
  /\ captures w' = captures w /\ waiting w' = waiting w
  /\ written (effects w') = written (effects w)
  /\ deletions (effects w') = deletions (effects w)
  /\ emitted (effects w') = emitted (effects w)
  /\ exists message, effects w' = ELog Debug message :: effects w.
Proof.
  run. intros H Hs.
  destruct (negb (hasClients (this w))); simpl in H;
    [| destruct (servingSnapshot (this w)) eqn:E; simpl in H;
       [| destruct (throttled (clock w) (this w)); simpl in H]];
    injection H as <- <-; simpl in *; try contradiction;
    repeat split; eauto.
Qed.

Lemma serve_skip_frame_witness :
  this (serve example_page (exec (boot plain_server 0) first_capture)).2
  = this (exec (boot plain_server 0) first_capture).
Proof.
  apply (serve_skip_frame (exec (boot plain_server 0) first_capture) _
           example_page NoClients); [vm_compute; reflexivity | exact I].
Defined.

(** A [serve] call made while the last snapshot is younger than the
    minimum interval returns through an early return, the one of the
    throttle when there is a client and no call is waiting: no capture is
    started, the object is unchanged, no snapshot is produced or sent.
    Consequently, in every run, the snapshots that [serve] calls obtained
    and pushed lie at least the minimum interval apart, by [createdAt]. *)
Lemma throttle options env now trace w :
  run_of options env now trace w ->
  (forall (page : Page) (t : Z) (last : Snapshot),
     lastSnapshot (this w) = Some last ->
     age t last < maxSnapshotFrequencyMillis (this w) ->
     let r := serve page (with_clock (fun _ => t) w) in
     (exists a, r.1 = Ok a /\ skipped a)
     /\ this r.2 = this w /\ captures r.2 = captures w /\ waiting r.2 = waiting w
     /\ capturers (effects r.2) = capturers (effects w)
     /\ served (effects r.2) = served (effects w)
     /\ emitted (effects r.2) = emitted (effects w)
     /\ (hasClients (this w) = true -> servingSnapshot (this w) = false ->
         r.1 = Ok Throttled))
  /\ spaced (maxSnapshotFrequencyMillis (this w)) (served (effects w)).
Proof.
  intros Hrun. split; [| apply (run_throttle _ _ _ _ _ Hrun)].
  intros page t last Hl Ha.
  assert (throttled t (this w) = true) as Hth
    by (unfold throttled; rewrite Hl; apply Z.ltb_lt, Ha).
  run.
  destruct (hasClients (this w)); simpl;
    [destruct (servingSnapshot (this w)); simpl; [| rewrite Hth; simpl] |];
    (split; [eexists; split; [reflexivity | exact I] |]);
    repeat split; auto; intros; discriminate.
Qed.

Lemma throttle_witness :
  spaced 2000 (served (effects (exec (boot screenshot_server 0) three_captures)))
  /\ (serve example_page
        (with_clock (fun _ => 500)
           (exec (boot screenshot_server 0) (take 4 spec_scenario)))).1
     = Ok Throttled.
Proof.
  split.
  - apply (throttle screenshot_options local_env 0 three_captures _
             (screenshot_run three_captures eq_refl)).
  - destruct (throttle screenshot_options local_env 0 (take 4 spec_scenario)
                (exec (boot screenshot_server 0) (take 4 spec_scenario))
                (screenshot_run (take 4 spec_scenario) eq_refl)) as [H _].
    apply (H example_page 500
             (new_Snapshot 0 "https://www.example.com" "<html>0</html>" (Some 0)));
      vm_compute; reflexivity.
Defined.

(** C6. The code at the failing input [crowded_captures]: a server built
    with the defaults (an interval of 2000 ms), [serve] at 0 on a page that
    stalls, the timer at 3000, [serve] again at 3100. The first capture was
    not cancelled by its timeout and completes at 3200, the second at 3300:
    two successful captures whose snapshots are created 100 ms apart, both
    stored in [lastSnapshot] and both sent to the clients (the first by
    [getLastSnapshot]). A [serve] call at 3400 is throttled as it should
    be. *)
Theorem captures_closer_than_interval :
  let w := exec (boot plain_server 0) crowded_captures in
  maxSnapshotFrequencyMillis (this w) = 2000
  /\ captured (effects w)
     = [new_Snapshot 3300 "https://www.example.com" "<html>b</html>" None;
        new_Snapshot 3200 "https://www.example.com" "<html>a</html>" None]
  /\ emitted (effects w)
     = [("snapshot",
         PSnapshot (new_Snapshot 3300 "https://www.example.com" "<html>b</html>" None));
        ("snapshot",
         PSnapshot (new_Snapshot 3200 "https://www.example.com" "<html>a</html>" None))]
  /\ served (effects w)
     = [new_Snapshot 3300 "https://www.example.com" "<html>b</html>" None]
  /\ (serve example_page (with_clock (fun _ => 3400) w)).1 = Ok Throttled.
Proof. cbv zeta. repeat split; vm_compute; reflexivity. Qed.

(** I2 of the specification, read over whole runs, does not hold. *)
Lemma captures_not_spaced : ~ captures_spaced.
Proof.
  intros H.
  specialize (H no_options local_env 0 crowded_captures
                (exec (boot plain_server 0) crowded_captures)
                (plain_run crowded_captures eq_refl)).
  assert (maxSnapshotFrequencyMillis
            (this (exec (boot plain_server 0) crowded_captures)) = 2000) as Hgap
    by (vm_compute; reflexivity).
  assert (captured (effects (exec (boot plain_server 0) crowded_captures))
          = [new_Snapshot 3300 "https://www.example.com" "<html>b</html>" None;
             new_Snapshot 3200 "https://www.example.com" "<html>a</html>" None])
    as Hcap by (vm_compute; reflexivity).
  rewrite Hgap, Hcap in H. unfold spaced in H. simpl in H. lia.
Qed.

(** [serve] does not throw: its synchronous part returns, and however
    the race around the capture settles (a snapshot, a capture error, the
    timeout) the rest of [serve] returns normally with [servingSnapshot]
    cleared, a failure being logged and nothing else. A call that finds
    [servingSnapshot] set returns at once and starts no capture. In every
    run the flag is set exactly while a [serve] call is suspended on its
    capture, and no event handler ever lets an error of [serve] escape. *)
Lemma serve_never_raises options env now trace w (page : Page) (c : nat)
    (r : Result Snapshot) :
  run_of options env now trace w ->
  (exists a, (serve page w).1 = Ok a)
  /\ (serve_resume c r w).1 = Ok tt
  /\ servingSnapshot (this (serve_resume c r w).2) = false
  /\ (forall err, r = Throw err ->
        effects (serve_resume c r w).2 =
          ELog Exception "Serving of page for live view failed"
            :: ESettled c r :: effects w)
  /\ (servingSnapshot (this w) = true ->
        ((serve page w).1 = Ok Busy \/ (serve page w).1 = Ok NoClients)
        /\ this (serve page w).2 = this w
        /\ captures (serve page w).2 = captures w
        /\ waiting (serve page w).2 = waiting w
        /\ next (serve page w).2 = next w)
  /\ (servingSnapshot (this w) = true <-> is_Some (waiting w))
  /\ (forall e, EUncaught e ∈ effects w ->
        e = TypeError "this.resolveMessagePromise is not a function").
Proof.
  intros Hrun. split; [| split; [| split; [| split; [| split; [| split]]]]].
  - run. destruct (negb (hasClients (this w))); simpl; [eauto |].
    destruct (servingSnapshot (this w)); simpl; [eauto |].
    destruct (throttled (clock w) (this w)); simpl; eauto.
  - run. destruct r; reflexivity.
  - run. destruct r; reflexivity.
  - intros err ->. reflexivity.
  - intros Hserving. run. rewrite Hserving.
    destruct (negb (hasClients (this w))); simpl; auto 10.
  - exact (run_flag _ _ _ _ _ Hrun).
  - exact (run_uncaught _ _ _ _ _ Hrun).
Qed.

Lemma serve_never_raises_witness :
  (serve_resume 0 (Throw timeout_error)
     (exec (boot plain_server 0) [(0, CallServe example_page)])).1 = Ok tt
  /\ (serve example_page
        (exec (boot plain_server 0) [(0, CallServe example_page)])).1 = Ok Busy.
Proof.
  pose proof (serve_never_raises no_options local_env 0
                [(0, CallServe example_page)] _ example_page 0
                (Throw timeout_error)
                (plain_run [(0, CallServe example_page)] eq_refl))
    as (_ & H & _ & _ & Hbusy & _).
  split; [exact H |].
  destruct Hbusy as ([Hb | Hb] & _); [vm_compute; reflexivity | exact Hb |].
  vm_compute in Hb. discriminate Hb.
Defined.

(** Every way the capture of a waiting [serve] call can end reaches the
    rest of [serve]: a rejection at the page or at [writeFile] and the
    timeout are logged once and swallowed, a snapshot is pushed once, and
    in each case the flag is cleared, the call no longer waits and no error
    escapes the turn of the event loop. *)
Lemma serve_outcomes options env now trace w (c : nat) (due t : Z) :
  run_of options env now trace w -> waiting w = Some (c, due) ->
  (exists k, captures w !! c = Some k)
  /\ (forall k err, captures w !! c = Some k ->
        let w' := step w (t, rejected k c err) in
        effects w' = ELog Exception "Serving of page for live view failed"
                       :: ESettled c (Throw err) :: effects w
        /\ this w' = set_servingSnapshot false (this w)
        /\ waiting w' = None)
  /\ (due <= t ->
        let w' := step w (t, TimerFired) in
        effects w' = ELog Exception "Serving of page for live view failed"
                       :: ESettled c (Throw timeout_error) :: effects w
        /\ this w' = set_servingSnapshot false (this w)
        /\ waiting w' = None)
  /\ (forall url html i data,
        captures w !! c = Some (AwaitWrite url html i data) ->
        let w' := step w (t, WriteResolved c) in
        let s := new_Snapshot t url html (Some i) in
        servingSnapshot (this w') = false /\ waiting w' = None
        /\ ESettled c (Ok s) ∈ effects w'
        /\ emitted (effects w') = ("snapshot", PSnapshot s) :: emitted (effects w)
        /\ (forall e, EUncaught e ∈ effects w' -> EUncaught e ∈ effects w))
  /\ (forall url html shot,
        captures w !! c = Some (AwaitPage url) -> useScreenshots (this w) = false ->
        let w' := step w (t, PageResolved c html shot) in
        let s := new_Snapshot t url html None in
        servingSnapshot (this w') = false /\ waiting w' = None
        /\ ESettled c (Ok s) ∈ effects w'
        /\ emitted (effects w') = ("snapshot", PSnapshot s) :: emitted (effects w)
        /\ (forall e, EUncaught e ∈ effects w' -> EUncaught e ∈ effects w)).
Proof.
  intros Hrun Hw. destruct (run_capture _ _ _ _ _ Hrun) as (_ & _ & _ & Hlive).
  split; [apply elem_of_dom, (Hlive _ _ Hw) |]. split; [| split; [| split]].
  - intros k err Hc. cbv zeta. destruct k; unfold rejected; split_step.
    all: tests; simplify_eq.
    all: auto.
  - intros Hdue. cbv zeta. split_step.
    all: tests; simplify_eq; try lia.
    all: auto.
  - intros url html i data Hc. cbv zeta.
    match goal with |- ?G => change (hold G) end.
    split_step; unfold hold.
    all: tests; simplify_eq; try congruence.
    all: repeat split; try (in_list; fail).
    all: intros e He;
         repeat (apply elem_of_cons in He as [He | He]; [discriminate He |]);
         exact He.
  - intros url html shot Hc Hu. cbv zeta.
    match goal with |- ?G => change (hold G) end.
    split_step; unfold hold.
    all: tests; simplify_eq; try congruence.
    all: repeat split; try (in_list; fail).
    all: intros e He;
         repeat (apply elem_of_cons in He as [He | He]; [discriminate He |]);
         exact He.
Qed.

(** C7. The code at the failing input: a server built with the defaults,
    [serve] at 0 on a page that stalls, the timer at 3000, [serve] again at
    3100. The timeout is logged and swallowed and the flag is cleared, as
    the specification says (and so it is when the page fails at 250
    instead, or answers at 250, when the snapshot is pushed); but after the
    timeout the capture of the first call is still in flight, and the second
    call starts a second capture beside it. *)
Theorem serve_starts_second_capture :
  let waited := exec (boot plain_server 0) [(0, CallServe example_page)] in
  let failed := step waited (250, PageRejected 0 (JsError "Navigation failed")) in
  let pushed := step waited (250, PageResolved 0 "<html></html>" []) in
  let returned := step waited (3000, TimerFired) in
  let again := serve example_page (with_clock (fun _ => 3100) returned) in
  servingSnapshot (this waited) = true
  /\ effects failed = ELog Exception "Serving of page for live view failed"
                        :: ESettled 0 (Throw (JsError "Navigation failed"))
                        :: effects waited
  /\ servingSnapshot (this failed) = false
  /\ emitted (effects pushed)
     = [("snapshot",
         PSnapshot (new_Snapshot 250 "https://www.example.com" "<html></html>" None))]
  /\ servingSnapshot (this pushed) = false
  /\ effects returned = ELog Exception "Serving of page for live view failed"
                          :: ESettled 0 (Throw timeout_error) :: effects waited
  /\ servingSnapshot (this returned) = false
  /\ captures returned = {[ 0%nat := AwaitPage "https://www.example.com" ]}
  /\ again.1 = Ok (Capturing 1)
  /\ captures again.2 = {[ 0%nat := AwaitPage "https://www.example.com";
                           1%nat := AwaitPage "https://www.example.com" ]}.
Proof. cbv zeta. repeat split; vm_compute; reflexivity. Qed.

(** I1 of the specification, read over whole runs, does not hold. *)
Lemma second_capture_in_flight : ~ one_capture_in_flight.
Proof.
  intros H.
  destruct (H no_options local_env 0
              [(0, CallServe example_page); (3000, TimerFired)]
              (exec (boot plain_server 0)
                 [(0, CallServe example_page); (3000, TimerFired)])
              example_page 3100
              (plain_run [(0, CallServe example_page); (3000, TimerFired)] eq_refl))
    as (a & Ha & Hs).
  - intros Hempty. apply (f_equal (fun m => m !! 0%nat)) in Hempty.
    vm_compute in Hempty. discriminate Hempty.
  - vm_compute in Ha. injection Ha as <-. exact Hs.
Qed.

(** ** The prompt bridge *)






Lemma step_keeps_prompts (w : World) (t : Z) (ev : Event) :
  (forall data parsed, ev <> PromptAnswer data parsed) ->
  prompts w ⊆ prompts (step w (t, ev)).
Proof.
  intros Hev. destruct ev; try (exfalso; eapply Hev; reflexivity).
  all: clear Hev; split_step.
  all: set_solver.
Qed.

(** C2, amended. A [prompt] call broadcasts a "prompt" event with the
    options of its caller and suspends; no event other than an inbound
    answer wakes it. When an answer arrives while the call's resolve
    function is the stored one, the call is resumed with the parsed
    response (the raw data when parsing fails), and after that
    [handleResponse] is invoked on this same value. The call then settles
    with undefined when [handleResponse] returned, and with its error when
    it threw: the response goes to the handler, not back to the caller. *)
Theorem prompt_round_trip (w : World) (options : option value) :
  let p := next w in
  let w1 := (prompt options w).2 in
  (prompt options w).1 = Ok p
  /\ emitted (effects w1) =
       ("prompt", PValue (default_param (VObj []) options)) :: emitted (effects w)
  /\ p ∈ prompts w1
  /\ resolveMessagePromise (this w1) = Some p
  /\ (forall q r, EPrompt q r ∈ effects w1 -> EPrompt q r ∈ effects w)
  /\ (forall (v : World) (t : Z) (ev : Event),
        (forall data parsed, ev <> PromptAnswer data parsed) ->
        p ∈ prompts v -> p ∈ prompts (step v (t, ev)))
  /\ forall (w2 : World) (data : value) (parsed : option value),
       p ∈ prompts w2 -> resolveMessagePromise (this w2) = Some p ->
       let response := default data parsed in
       exists resumed : World,
         (exists logs, effects resumed =
            ELog Debug "Response data." :: EResolve p response :: logs ++ effects w2)
         /\ prompts resumed = prompts w2 ∖ {[p]}
         /\ this resumed = this w2
         /\ on_promptAnswer data parsed w2 =
              (Ok tt,
               with_effects
                 (cons (EPrompt p (undefined_after (handleResponse response resumed).1)))
                 (handleResponse response resumed).2).
Proof.
  cbv zeta. repeat split.
  - run. set_solver.
  - intros q r. run. rewrite !elem_of_cons. intuition discriminate.
  - intros v t ev Hev Hp. apply (step_keeps_prompts v t ev Hev), Hp.
  - intros w2 data parsed Hp Hr. destruct parsed as [v|]; run; rewrite Hr.
    + simpl. case_decide; [| contradiction].
      simpl.
      exists (with_effects
                (fun l => ELog Debug "Response data." :: EResolve (next w) v
                            :: ELog Debug "promptAnswer" :: l)
                (with_prompts (fun ps => ps ∖ {[next w]}) w2)).
      simpl.
      split; [exists [ELog Debug "promptAnswer"]; reflexivity |].
      split; [reflexivity |]. split; [reflexivity |].
      destruct (get_action v) as [a|]; simpl; [| reflexivity].
      destruct (property_key a) as [k|]; simpl; [| reflexivity].
      destruct (get_member (promptHandlers (this w2)) k) as [[h|]|]; simpl;
        try reflexivity.
      destruct (h v); reflexivity.
    + simpl. case_decide; [| contradiction].
      simpl.
      exists (with_effects
                (fun l => ELog Debug "Response data." :: EResolve (next w) data
                            :: ELog Debug "Failed to parse incoming message data"
                            :: ELog Debug "promptAnswer" :: l)
                (with_prompts (fun ps => ps ∖ {[next w]}) w2)).
      simpl.
      split; [exists [ELog Debug "Failed to parse incoming message data";
                      ELog Debug "promptAnswer"]; reflexivity |].
      split; [reflexivity |]. split; [reflexivity |].
      destruct (get_action data) as [a|]; simpl; [| reflexivity].
      destruct (property_key a) as [k|]; simpl; [| reflexivity].
      destruct (get_member (promptHandlers (this w2)) k) as [[h|]|]; simpl;
        try reflexivity.
      destruct (h data); reflexivity.
Qed.

Lemma prompt_round_trip_witness :
  exists resumed : World,
    on_promptAnswer ok_answer None
      (prompt (Some (VObj [("x", VNum 1)])) (boot prompt_server 0)).2
    = (Ok tt,
       with_effects
         (cons (EPrompt 0 (undefined_after (handleResponse ok_answer resumed).1)))
         (handleResponse ok_answer resumed).2).
Proof.
  pose proof (prompt_round_trip (boot prompt_server 0)
                (Some (VObj [("x", VNum 1)]))) as (_ & _ & _ & _ & _ & _ & H).
  destruct (H (prompt (Some (VObj [("x", VNum 1)])) (boot prompt_server 0)).2
              ok_answer None) as (resumed & _ & _ & _ & Heq).
  - apply (bool_decide_unpack _). vm_compute. exact I.
  - vm_compute. reflexivity.
  - exists resumed. exact Heq.
Defined.

(** C2, as stated, fails: the prompt call of [answered_prompt] is resumed
    with [ok_answer] and returns undefined. *)
Lemma prompt_returns_undefined : ~ prompt_returns_response.
Proof.
  intros H.
  specialize (H prompt_options local_env 0 answered_prompt
                (exec (boot prompt_server 0) answered_prompt)
                0%nat ok_answer (Ok VUndefined)
                (prompt_run answered_prompt eq_refl)).
  assert (Ok VUndefined = Ok ok_answer) as Heq; [| discriminate Heq].
  apply H; vm_compute; in_list.
Qed.

(** ** Timeouts *)

(** What a timeout does when it fires: the suspended [serve] call logs the
    failure and returns with the flag cleared; [lastSnapshot] is untouched
    and the call's capture has not assigned it so far. The capture is not
    cancelled: it stays among the live activations. *)
Lemma serve_timeout options env now trace w (t : Z) (c : nat) (due : Z) :
  run_of options env now trace w ->
  waiting w = Some (c, due) -> due <= t ->
  let w' := step w (t, TimerFired) in
  effects w' = ELog Exception "Serving of page for live view failed"
                 :: ESettled c (Throw timeout_error) :: effects w
  /\ lastSnapshot (this w') = lastSnapshot (this w)
  /\ servingSnapshot (this w') = false
  /\ waiting w' = None
  /\ (c ∉ capturers (effects w'))
  /\ captures w' = captures w
  /\ c ∈ dom (captures w').
Proof.
  intros Hrun Hw Ht. destruct (run_capture _ _ _ _ _ Hrun) as (_ & _ & Hn & Hd).
  specialize (Hd _ _ Hw). specialize (Hn _ Hd).
  unfold step, dispatch. run. rewrite Hw. simpl.
  apply Z.leb_le in Ht. rewrite Ht. simpl. auto 10.
Qed.

Lemma serve_timeout_example :
  let w := exec (boot plain_server 0) [(0, CallServe example_page)] in
  servingSnapshot (this (step w (3000, TimerFired))) = false
  /\ lastSnapshot (this (step w (3000, TimerFired))) = lastSnapshot (this w).
Proof.
  pose proof (serve_timeout no_options local_env 0 [(0, CallServe example_page)]
                _ 3000 0%nat 3000
                (plain_run [(0, CallServe example_page)] eq_refl)) as H.
  destruct H as (_ & Hl & Hs & _); [vm_compute; reflexivity | lia |].
  split; [exact Hs | exact Hl].
Defined.

(** A capture that no [serve] call waits for any more still completes:
    it assigns [lastSnapshot], and nothing is broadcast. *)
Lemma abandoned_capture_completes (w : World) (t : Z) (c : nat) :
  (forall due, waiting w <> Some (c, due)) ->
  (forall url html i data,
     captures w !! c = Some (AwaitWrite url html i data) ->
     let w' := step w (t, WriteResolved c) in
     lastSnapshot (this w') = Some (new_Snapshot t url html (Some i))
     /\ c ∈ capturers (effects w')
     /\ emitted (effects w') = emitted (effects w))
  /\ (forall url html shot,
     captures w !! c = Some (AwaitPage url) -> useScreenshots (this w) = false ->
     let w' := step w (t, PageResolved c html shot) in
     lastSnapshot (this w') = Some (new_Snapshot t url html None)
     /\ c ∈ capturers (effects w')
     /\ emitted (effects w') = emitted (effects w)).
Proof.
  intros Hw. split.
  - intros url html i data Hc. unfold step, dispatch. run. rewrite Hc. simpl.
    destruct (maxScreenshotFiles (this w) - 1 <? i); simpl;
      (destruct (waiting w) as [[c' due] |] eqn:E; simpl;
       [destruct (Nat.eqb c c') eqn:Ec; simpl;
        [apply Nat.eqb_eq in Ec; subst; exfalso; eapply Hw; reflexivity |] |]);
      repeat split; apply list_elem_of_here.
  - intros url html shot Hc Hu. unfold step, dispatch. run. rewrite Hc. simpl.
    rewrite Hu. simpl.
    destruct (waiting w) as [[c' due] |] eqn:E; simpl;
      [destruct (Nat.eqb c c') eqn:Ec; simpl;
       [apply Nat.eqb_eq in Ec; subst; exfalso; eapply Hw; reflexivity |] |];
      repeat split; apply list_elem_of_here.
Qed.

(** C1. The code at the failing input [late_capture]: a server built with
    the defaults, [serve] at 0, the timer at 3000, the page content at 3500.
    When the timer has fired [serve] has returned, [servingSnapshot] is
    false and [lastSnapshot] is still null; when the content arrives, the
    capture that timed out goes on to line 259 and assigns [lastSnapshot],
    and nothing is broadcast. *)
Theorem late_capture_replaces_lastSnapshot :
  let returned := exec (boot plain_server 0) (take 2 late_capture) in
  let completed := exec (boot plain_server 0) late_capture in
  ESettled 0 (Throw timeout_error) ∈ effects returned
  /\ servingSnapshot (this returned) = false
  /\ lastSnapshot (this returned) = None
  /\ lastSnapshot (this completed)
     = Some (new_Snapshot 3500 "https://www.example.com" "<html></html>" None)
  /\ 0%nat ∈ capturers (effects completed)
  /\ emitted (effects completed) = [].
Proof.
  cbv zeta. repeat split; vm_compute; try reflexivity; in_list.
Qed.

(** P6 of the specification, read over whole runs, does not hold. *)
Lemma timeout_does_not_discard : ~ timeout_discards_capture.
Proof.
  intros H.
  apply (H no_options local_env 0 late_capture
           (exec (boot plain_server 0) late_capture) 0%nat
           (plain_run late_capture eq_refl)).
  - vm_compute. in_list.
  - vm_compute. in_list.
Qed.

(** ** Screenshot indices and retention *)

Lemma seqZ_sorted (m n : Z) : StronglySorted Z.lt (seqZ m n).
Proof.
  remember (Z.to_nat n) as k eqn:Hk. revert m n Hk.
  induction k as [| k IH]; intros m n Hk.
  - rewrite seqZ_nil by lia. constructor.
  - rewrite seqZ_cons by lia. constructor.
    + apply IH. lia.
    + apply Forall_seqZ. intros. lia.
Qed.

(** C4. In every run the indices assigned at line 249 are, in the order of
    their assignment, 0, 1, ..., N-1, where N is their number (and the
    value of the counter): they start at 0, increase strictly and do not
    repeat. With screenshots enabled every capture that reaches line 249 is
    assigned one. *)
Theorem screenshot_indices options env now trace w :
  run_of options env now trace w ->
  let N := Z.of_nat (length (indices (effects w))) in
  reverse (indices (effects w)) = seqZ 0 N
  /\ lastScreenshotIndex (this w) = N
  /\ StronglySorted Z.lt (reverse (indices (effects w)))
  /\ NoDup (indices (effects w))
  /\ (useScreenshots (this w) = true ->
      forall c index, EIndex c index ∈ effects w -> is_Some index).
Proof.
  intros Hrun. destruct (run_index _ _ _ _ _ Hrun) as [Hi H0].
  assert (Z.of_nat (length (indices (effects w))) = lastScreenshotIndex (this w))
    as HN by (rewrite Hi, length_reverse, length_seqZ; lia).
  cbv zeta. rewrite HN, Hi, reverse_involutive. repeat split.
  - apply seqZ_sorted.
  - rewrite reverse_Permutation. apply NoDup_seqZ.
  - intros Hu c index Hin. pose proof (run_enabled _ _ _ _ _ Hrun Hu) as Hall.
    rewrite Forall_forall in Hall. specialize (Hall _ Hin c).
    destruct index; [eauto | congruence].
Qed.

Lemma screenshot_indices_witness :
  reverse (indices (effects (exec (boot screenshot_server 0) three_captures)))
  = seqZ 0 3.
Proof.
  apply (screenshot_indices screenshot_options local_env 0 three_captures _
           (screenshot_run three_captures eq_refl)).
Defined.












(** * Further properties *)

(** ** Screenshot paths and retrieval *)

Lemma append_cons (c : ascii) (a b : string) :
  String c a +:+ b = String c (a +:+ b).
Proof. reflexivity. Qed.

Lemma append_length (a b : string) :
  String.length (a +:+ b) = (String.length a + String.length b)%nat.
Proof.
  induction a as [| c a IH]; [reflexivity |].
  rewrite append_cons. simpl. rewrite IH. reflexivity.
Qed.

Lemma append_inj_suffix (x y suffix : string) :
  x +:+ suffix = y +:+ suffix -> x = y.
Proof.
  revert y. induction x as [| c x IH]; intros [| d y] H.
  - reflexivity.
  - apply (f_equal String.length) in H. rewrite !append_length in H.
    simpl in H. lia.
  - apply (f_equal String.length) in H. rewrite !append_length in H.
    simpl in H. lia.
  - rewrite !append_cons in H. injection H as -> H. f_equal. apply IH, H.
Qed.

Lemma getScreenshotPath_eq (s : Server) (i j : Z) :
  _getScreenshotPath s i = _getScreenshotPath s j -> i = j.
Proof.
  unfold _getScreenshotPath, path_join. intros H.
  apply String.app_inj, String.app_inj, append_inj_suffix in H.
  apply (inj pretty), H.
Qed.

(** X1. Two indices never share a path: [_getScreenshotPath] is
    injective in the index, whatever the directory, so the artifact of one
    index is never written over or deleted in place of another's. *)
Theorem getScreenshotPath_inj (s : Server) (i j : Z) :
  i <> j -> _getScreenshotPath s i <> _getScreenshotPath s j.
Proof. intros Hne H. apply Hne, (getScreenshotPath_eq s), H. Qed.

Lemma getScreenshotPath_inj_witness :
  _getScreenshotPath plain_server 3 <> _getScreenshotPath plain_server (-3).
Proof. apply getScreenshotPath_inj. lia. Defined.

(** ** More invariants *)

Lemma from_capture_mono (l : list Snapshot) (s : Snapshot) (e : string * Payload) :
  from_capture l e -> from_capture (s :: l) e.
Proof.
  destruct e as [m [s' | v]]; simpl; [| auto].
  intros [-> H]. split; [reflexivity | apply list_elem_of_further, H].
Qed.

Lemma step_broadcast (w : World) (t : Z) (ev : Event) :
  broadcast_inv w -> broadcast_inv (step w (t, ev)).
Proof.
  unfold broadcast_inv. intros [Hl He]. destruct ev.
  all: split_step.
  all: try (split; assumption).
  all: split; try reflexivity; try assumption.
  all: repeat (apply Forall_cons; split).
  all: try (simpl; split; [reflexivity | apply list_elem_of_here]).
  all: try reflexivity.
  all: try assumption.
  all: try (eapply Forall_impl; [exact He | intros; apply from_capture_mono; assumption]).
  simpl. split; [reflexivity |].
  match goal with H : lastSnapshot _ = Some _ |- _ => rewrite Hl in H; unfold latest in H end.
  destruct (captured (effects w)); simplify_eq/=. apply list_elem_of_here.
Qed.

Lemma has_artifact_mono (enabled : bool) (l : list Z) (i : Z) (s : Snapshot) :
  has_artifact enabled l s -> has_artifact enabled (i :: l) s.
Proof.
  unfold has_artifact. destruct (screenshotIndex s); [| auto].
  intros [-> H]. split; [reflexivity | apply list_elem_of_further, H].
Qed.

Lemma step_artifact (w : World) (t : Z) (ev : Event) :
  artifact_inv w -> artifact_inv (step w (t, ev)).
Proof.
  unfold artifact_inv. intros [Hc Ha]. destruct ev.
  all: split_step.
  all: try (split; assumption).
  all: split.
  all: try assumption.
  all: try (intros c' url' html' i' data' Hlook;
            first [ rewrite lookup_insert in Hlook; case_decide; simplify_eq;
                    solve [eauto]
                  | apply lookup_delete_Some in Hlook as [_ Hlook]; solve [eauto] ]).
  all: repeat (apply Forall_cons; split).
  all: try (unfold has_artifact; simpl; solve [auto using list_elem_of_here]).
  all: try assumption.
  all: try (eapply Forall_impl; [exact Ha | intros; apply has_artifact_mono; assumption]).
  all: subst; unfold has_artifact; simpl; split; [eauto | apply list_elem_of_here].
Qed.

Lemma step_settle (w : World) (t : Z) (ev : Event) :
  settle_inv w -> settle_inv (step w (t, ev)).
Proof.
  unfold settle_inv. intros (Hn & Hs & Hw). destruct ev.
  all: split_step.
  all: try (repeat split; assumption).
  all: tests; subst.
  all: split; [| split].
  all: lazymatch goal with
       | |- NoDup _ =>
           first [ assumption
                 | apply NoDup_cons; split; [eapply Hw; eassumption | assumption] ]
       | |- forall c due, _ = Some _ -> _ =>
           first [ exact Hw | intros c' due' Hq; simplify_eq ];
           first [ destruct (Hw _ _ Hq) as [Hnot Hlt]; split; [exact Hnot | simpl; lia]
                 | split; [intros Hin; specialize (Hs _ Hin); lia | simpl; lia] ]
       | |- forall c, _ ∈ _ -> _ =>
           intros c'; rewrite ?elem_of_cons; intros Hin;
           repeat match goal with
                  | H : _ \/ _ |- _ => destruct H as [H | H]
                  end; subst;
           first [ specialize (Hs _ Hin); simpl; lia
                 | match goal with
                   | Hq : waiting _ = Some _ |- _ =>
                       destruct (Hw _ _ Hq) as [_ Hlt]; simpl; lia
                   end ]
       end.
Qed.

Lemma step_prompt (w : World) (t : Z) (ev : Event) :
  prompt_inv w -> prompt_inv (step w (t, ev)).
Proof.
  unfold prompt_inv. intros (Hn & Hp & Hs & Hh). destruct ev.
  all: split_step.
  all: try (repeat split; assumption).
  all: split; [| split; [| split]].
  all: lazymatch goal with
       | |- NoDup _ =>
           first [ assumption
                 | apply NoDup_cons; split; [eapply Hp; eassumption | assumption] ]
       | |- (_ <= _)%nat => simpl; lia
       | |- forall p, p ∈ prompts _ -> _ => first [ exact Hp | idtac ]
       | |- forall p, p ∈ _ -> _ => first [ exact Hs | idtac ]
       end.
  all: intros p'; specialize (Hp p'); specialize (Hs p'); set_unfold.
  all: naive_solver lia.
Qed.


Lemma step_orphan (p : nat) (w : World) (t : Z) (ev : Event) :
  orphan p w -> orphan p (step w (t, ev)).
Proof.
  unfold orphan. intros (Hp & Hr & Hlt & Hs). destruct ev.
  all: split_step.
  all: try (repeat split; assumption).
  all: split; [| split; [| split]]; simpl; try assumption; try lia.
  all: set_unfold; naive_solver lia.
Qed.

Lemma exec_orphan (p : nat) (trace : list (Z * Event)) (w : World) :
  orphan p w -> orphan p (exec w trace).
Proof.
  revert w. induction trace as [| [t ev] trace IH]; intros w H; [exact H |].
  simpl. apply IH, step_orphan, H.
Qed.

Lemma step_clientCount (w : World) (t : Z) (ev : Event) :
  clientCount (this (step w (t, ev))) = clientCount (this w) + delta ev.
Proof. destruct ev; split_step; lia. Qed.

Lemma exec_clientCount (trace : list (Z * Event)) (w : World) :
  clientCount (this (exec w trace)) = clientCount (this w) + balance trace.
Proof.
  revert w. induction trace as [| [t ev] trace IH]; intros w; simpl; [lia |].
  rewrite IH, step_clientCount. lia.
Qed.

Lemma step_isRunning (w : World) (t : Z) (ev : Event) :
  _isRunning (this (step w (t, ev))) = _isRunning (this w).
Proof. destruct ev; split_step; reflexivity. Qed.

Lemma step_http (w : World) (t : Z) (ev : Event) :
  httpServer (this (step w (t, ev))) = httpServer (this w).
Proof. destruct ev; split_step; reflexivity. Qed.

Lemma step_files (w : World) (t : Z) (ev : Event) :
  files_inv w -> files_inv (step w (t, ev)).
Proof.
  unfold files_inv. intros H.
  match goal with |- ?G => change (hold G) end.
  destruct ev; split_step; unfold hold; intros i' data' Hl.
  all: repeat match goal with
       | Hl : delete _ _ !! _ = Some _ |- _ =>
           apply lookup_delete_Some in Hl as [_ Hl]
       | Hl : <[_ := _]> _ !! _ = Some _ |- _ =>
           apply lookup_insert_Some in Hl as [[<- <-] | [_ Hl]]
       end.
  all: repeat first [ apply list_elem_of_here | apply list_elem_of_further ].
  all: apply H; assumption.
Qed.

Lemma step_resolver (w : World) (t : Z) (ev : Event) :
  resolver_inv w -> resolver_inv (step w (t, ev)).
Proof.
  unfold resolver_inv. intros H. destruct ev.
  all: split_step.
  all: try assumption.
  all: split; intros; simpl in *; try discriminate; try congruence.
  all: apply H; assumption.
Qed.

(** ** The further invariants hold throughout every run *)

Lemma run_broadcast options env now trace w :
  run_of options env now trace w -> broadcast_inv w.
Proof.
  apply (run_invariant broadcast_inv); [| intros; apply step_broadcast; assumption].
  at_boot. split; [reflexivity | constructor].
Qed.

Lemma run_artifact options env now trace w :
  run_of options env now trace w -> artifact_inv w.
Proof.
  apply (run_invariant artifact_inv); [| intros; apply step_artifact; assumption].
  at_boot. split; [intros c url html i data Hl; inversion Hl | constructor].
Qed.

Lemma run_settle options env now trace w :
  run_of options env now trace w -> settle_inv w.
Proof.
  apply (run_invariant settle_inv); [| intros; apply step_settle; assumption].
  at_boot. split; [constructor | split]; [intros c Hc; inversion Hc | discriminate].
Qed.

Lemma run_prompt options env now trace w :
  run_of options env now trace w -> prompt_inv w.
Proof.
  apply (run_invariant prompt_inv); [| intros; apply step_prompt; assumption].
  at_boot. split; [constructor | split; [| split]]; [set_solver | | lia].
  intros p Hp. inversion Hp.
Qed.

Lemma run_files options env now trace w :
  run_of options env now trace w -> files_inv w.
Proof.
  apply (run_invariant files_inv); [| intros; apply step_files; assumption].
  at_boot. intros i data Hl. inversion Hl.
Qed.

Lemma run_resolver options env now trace w :
  run_of options env now trace w -> resolver_inv w.
Proof.
  apply (run_invariant resolver_inv); [| intros; apply step_resolver; assumption].
  at_boot. split; reflexivity.
Qed.

Lemma run_http options env now trace w :
  run_of options env now trace w -> httpServer (this w) = true.
Proof.
  apply (run_invariant (fun w => httpServer (this w) = true));
    [| intros; rewrite step_http; assumption].
  at_boot. reflexivity.
Qed.

Lemma run_clientCount options env now trace w :
  run_of options env now trace w -> clientCount (this w) = balance trace.
Proof.
  intros (s & Hs & _ & ->). rewrite exec_clientCount.
  apply constructor_ok in Hs. subst s. reflexivity.
Qed.

(** Two entries of the trace that a reading sends to the same name are
    one, when the reading has no name twice. *)
Lemma omap_NoDup_eq {A B} (f : A -> option B) (l : list A) (x y : A) (b : B) :
  NoDup (omap f l) -> x ∈ l -> y ∈ l -> f x = Some b -> f y = Some b -> x = y.
Proof.
  induction l as [| a l IH]; intros Hn Hx Hy Hfx Hfy; [inversion Hx |].
  simpl in Hn.
  apply elem_of_cons in Hx as [-> | Hx]; apply elem_of_cons in Hy as [-> | Hy].
  - reflexivity.
  - rewrite Hfx in Hn. apply NoDup_cons in Hn as [Hn _]. exfalso. apply Hn.
    apply list_elem_of_omap. eauto.
  - rewrite Hfy in Hn. apply NoDup_cons in Hn as [Hn _]. exfalso. apply Hn.
    apply list_elem_of_omap. eauto.
  - destruct (f a); [apply NoDup_cons in Hn as [_ Hn] |]; auto.
Qed.

Lemma get_screenshot_index (w : World) (i : Z) :
  get_screenshot w (pretty i) = files w !! i.
Proof.
  unfold get_screenshot, disk.
  change (screenshot_file_path (this w) (pretty i)) with (_getScreenshotPath (this w) i).
  assert (Inj eq eq (_getScreenshotPath (this w))) as Hinj
    by (intros a b; apply getScreenshotPath_eq).
  apply (lookup_kmap (_getScreenshotPath (this w))).
Qed.

(** ** Screenshot retrieval *)

(** X2. In every run, the screenshot of a snapshot that a capture stored can
    be fetched under its index as long as its deletion has not been
    requested: for a snapshot carrying index [i], the path that the route
    [/screenshot/:index] builds for the parameter [i] is the path the artifact
    was written to, the file is there, and it holds the data written. *)
Theorem screenshot_route options env now trace w (s : Snapshot) (i : Z) :
  run_of options env now trace w ->
  s ∈ captured (effects w) -> screenshotIndex s = Some i ->
  i ∉ deletions (effects w) ->
  exists data, get_screenshot w (pretty i) = Some data /\ EWrite i data ∈ effects w.
Proof.
  intros Hrun Hs Hi Hd.
  destruct (run_artifact _ _ _ _ _ Hrun) as [_ Ha].
  rewrite Forall_forall in Ha. specialize (Ha s Hs).
  unfold has_artifact in Ha. rewrite Hi in Ha. destruct Ha as [_ Hw].
  destruct (run_retention _ _ _ _ _ Hrun) as (_ & _ & Hf & _).
  specialize (Hf i Hw Hd). apply elem_of_dom in Hf as [data Hdata].
  exists data. rewrite get_screenshot_index.
  split; [exact Hdata | apply (run_files _ _ _ _ _ Hrun), Hdata].
Qed.

Lemma screenshot_route_witness :
  exists data,
    get_screenshot (exec (boot screenshot_server 0) three_captures) (pretty 2) = Some data
    /\ EWrite 2 data ∈ effects (exec (boot screenshot_server 0) three_captures).
Proof.
  apply (screenshot_route screenshot_options local_env 0 three_captures _
           (new_Snapshot 5110 "https://www.example.com" "<html>2</html>" (Some 2))).
  - apply screenshot_run. reflexivity.
  - vm_compute. in_list.
  - reflexivity.
  - replace (deletions (effects (exec (boot screenshot_server 0) three_captures)))
      with [0] by (vm_compute; reflexivity).
    intros H. apply list_elem_of_singleton in H. discriminate H.
Defined.

(** X3. In every run, whatever happens, a deletion of artifact [i] has been
    requested exactly when [0 <= i] and the artifact [i + maxScreenshotFiles]
    has been written: an artifact stays until the capture
    [maxScreenshotFiles] later has written its own, and for good when that
    write fails. *)
Theorem deletion_requested_iff options env now trace w (i : Z) :
  run_of options env now trace w ->
  i ∈ deletions (effects w) <->
  0 <= i /\ i + maxScreenshotFiles (this w) ∈ written (effects w).
Proof.
  intros Hrun. destruct (run_retention _ _ _ _ _ Hrun) as (-> & _).
  rewrite list_elem_of_fmap. split.
  - intros (j & -> & Hj). apply list_elem_of_filter in Hj as [Hlt Hj].
    split; [lia |]. replace (j - _ + _) with j by lia. exact Hj.
  - intros [Hi Hw]. exists (i + maxScreenshotFiles (this w)).
    split; [lia |]. apply list_elem_of_filter. split; [lia | exact Hw].
Qed.

Lemma deletion_requested_iff_witness :
  0 ∈ deletions (effects (exec (boot screenshot_server 0) three_captures)) <->
  0 <= 0 /\ 0 + 2 ∈ written (effects (exec (boot screenshot_server 0) three_captures)).
Proof.
  apply (deletion_requested_iff screenshot_options local_env 0 three_captures).
  apply screenshot_run. reflexivity.
Defined.

(** ** Clients and broadcasts *)

(** X4. In every run [clientCount] is the number of connections minus the
    number of disconnections so far, and [hasClients()] answers true
    exactly when no capture has completed yet or that balance is
    positive. *)
Theorem clientCount_balance options env now trace w :
  run_of options env now trace w ->
  clientCount (this w) = balance trace
  /\ (hasClients (this w) = true <->
      captured (effects w) = [] \/ 0 < balance trace).
Proof.
  intros Hrun. pose proof (run_clientCount _ _ _ _ _ Hrun) as Hn.
  split; [exact Hn |].
  destruct (run_broadcast _ _ _ _ _ Hrun) as [Hl _].
  unfold hasClients. rewrite Hl, Hn. unfold latest.
  destruct (captured (effects w)); simpl.
  - split; auto.
  - rewrite Z.ltb_lt. split; [auto | intros [[=] | H]; exact H].
Qed.

Lemma clientCount_balance_witness :
  clientCount (this (exec (boot screenshot_server 0) spec_scenario))
  = balance spec_scenario
  /\ (hasClients (this (exec (boot screenshot_server 0) spec_scenario)) = true <->
      captured (effects (exec (boot screenshot_server 0) spec_scenario)) = []
      \/ 0 < balance spec_scenario).
Proof.
  apply (clientCount_balance screenshot_options local_env 0 spec_scenario).
  apply screenshot_run. reflexivity.
Defined.

(** X5. In every run, a client that asks with [getLastSnapshot] is sent
    the snapshot that a capture stored last, also when that capture had lost
    the race against its timeout, and is sent nothing while no capture has
    completed; the handler changes nothing in the object. *)
Theorem getLastSnapshot_resends options env now trace w (t : Z) :
  run_of options env now trace w ->
  emitted (effects (step w (t, GetLastSnapshot))) =
    match latest (captured (effects w)) with
    | Some s => ("snapshot", PSnapshot s) :: emitted (effects w)
    | None => emitted (effects w)
    end
  /\ this (step w (t, GetLastSnapshot)) = this w.
Proof.
  intros Hrun. destruct (run_broadcast _ _ _ _ _ Hrun) as [Hl _].
  rewrite <- Hl. unfold step, dispatch. run.
  destruct (lastSnapshot (this w)); simpl; auto.
Qed.

Lemma getLastSnapshot_resends_witness :
  emitted (effects (step (exec (boot plain_server 0) late_capture)
                         (4000, GetLastSnapshot))) =
    match latest (captured (effects (exec (boot plain_server 0) late_capture))) with
    | Some s => ("snapshot", PSnapshot s)
                  :: emitted (effects (exec (boot plain_server 0) late_capture))
    | None => emitted (effects (exec (boot plain_server 0) late_capture))
    end
  /\ this (step (exec (boot plain_server 0) late_capture) (4000, GetLastSnapshot))
     = this (exec (boot plain_server 0) late_capture).
Proof.
  apply (getLastSnapshot_resends no_options local_env 0 late_capture).
  apply plain_run. reflexivity.
Defined.

Lemma step_prompted (w : World) (t : Z) (ev : Event) (m : string) (v : value) :
  EEmit m (PValue v) ∈ effects (step w (t, ev)) ->
  EEmit m (PValue v) ∈ effects w
  \/ m = "prompt" /\ exists o, ev = CallPrompt o /\ v = default_param (VObj []) o.
Proof.
  match goal with |- ?G => change (hold G) end.
  destruct ev; split_step; unfold hold; intros Hin.
  all: repeat (apply elem_of_cons in Hin as [Hin | Hin]; [try discriminate |]).
  all: try (left; exact Hin).
  all: injection Hin as -> ->; right; eauto.
Qed.

Lemma exec_prompted (trace : list (Z * Event)) (w : World) (m : string) (v : value) :
  EEmit m (PValue v) ∈ effects (exec w trace) ->
  EEmit m (PValue v) ∈ effects w
  \/ m = "prompt"
     /\ exists t o, (t, CallPrompt o) ∈ trace /\ v = default_param (VObj []) o.
Proof.
  revert w. induction trace as [| [t ev] trace IH]; intros w Hin; [left; exact Hin |].
  simpl in Hin. apply IH in Hin as [Hin | (-> & t' & o & Ht & ->)].
  - apply step_prompted in Hin as [Hin | (-> & o & -> & ->)]; [left; exact Hin |].
    right. split; [reflexivity |]. exists t, o. split; [apply list_elem_of_here | reflexivity].
  - right. split; [reflexivity |]. exists t', o.
    split; [apply list_elem_of_further, Ht | reflexivity].
Qed.

(** X6. In every run, whatever is broadcast is a "snapshot" event carrying
    a snapshot that a capture constructed and stored, or a "prompt" event
    carrying the options of a [prompt] call of the run (the empty object
    when the call gave none). *)
Theorem broadcast_only_captured options env now trace w
    (message : string) (data : Payload) :
  run_of options env now trace w ->
  EEmit message data ∈ effects w ->
  match data with
  | PSnapshot s => message = "snapshot" /\ exists c, ECaptured c s ∈ effects w
  | PValue v =>
      message = "prompt"
      /\ exists t o, (t, CallPrompt o) ∈ trace /\ v = default_param (VObj []) o
  end.
Proof.
  intros Hrun He. destruct data as [s | v].
  - destruct (run_broadcast _ _ _ _ _ Hrun) as [_ Hf].
    rewrite Forall_forall in Hf. specialize (Hf (message, PSnapshot s)).
    assert ((message, PSnapshot s) ∈ emitted (effects w)) as Hin
      by (apply list_elem_of_omap; exists (EEmit message (PSnapshot s)); auto).
    specialize (Hf Hin). simpl in Hf. destruct Hf as [-> Hs].
    split; [reflexivity |].
    apply list_elem_of_omap in Hs as (e & He' & Hs).
    destruct e; try discriminate. injection Hs as ->. eauto.
  - destruct Hrun as (s & _ & _ & ->).
    apply exec_prompted in He as [He | He]; [inversion He | exact He].
Qed.

Lemma broadcast_only_captured_witness :
  ("snapshot" = "snapshot"
   /\ exists c, ECaptured c (new_Snapshot 2100 "https://www.example.com"
                               "<html>1</html>" (Some 1))
                ∈ effects (exec (boot screenshot_server 0) spec_scenario))
  /\ ("prompt" = "prompt"
      /\ exists t o, (t, CallPrompt o) ∈ answered_prompt
                     /\ VObj [("x", VNum 1)] = default_param (VObj []) o).
Proof.
  split.
  - apply (broadcast_only_captured screenshot_options local_env 0 spec_scenario _
             "snapshot"
             (PSnapshot (new_Snapshot 2100 "https://www.example.com"
                           "<html>1</html>" (Some 1)))).
    + apply screenshot_run. reflexivity.
    + vm_compute. in_list.
  - apply (broadcast_only_captured prompt_options local_env 0 answered_prompt
             (exec (boot prompt_server 0) answered_prompt)
             "prompt" (PValue (VObj [("x", VNum 1)]))).
    + apply prompt_run. reflexivity.
    + vm_compute. in_list.
Defined.

(** X7. In every run, a snapshot that a capture stored carries a
    screenshot index exactly when screenshots are enabled, and then the
    artifact of that index had been written before the snapshot was stored
    or broadcast. *)
Theorem snapshot_artifact_written options env now trace w (c : nat) (s : Snapshot) :
  run_of options env now trace w ->
  ECaptured c s ∈ effects w ->
  match screenshotIndex s with
  | Some i => useScreenshots (this w) = true /\ exists data, EWrite i data ∈ effects w
  | None => useScreenshots (this w) = false
  end.
Proof.
  intros Hrun Hc. destruct (run_artifact _ _ _ _ _ Hrun) as [_ Ha].
  rewrite Forall_forall in Ha. specialize (Ha s).
  assert (s ∈ captured (effects w)) as Hin
    by (apply list_elem_of_omap; exists (ECaptured c s); auto).
  specialize (Ha Hin). unfold has_artifact in Ha.
  destruct (screenshotIndex s) as [i |]; [| exact Ha].
  destruct Ha as [Hu Hw]. split; [exact Hu |].
  apply list_elem_of_omap in Hw as (e & He & Hw).
  destruct e; try discriminate. injection Hw as ->. eauto.
Qed.

Lemma snapshot_artifact_written_witness :
  useScreenshots (this (exec (boot screenshot_server 0) spec_scenario)) = true
  /\ exists data, EWrite 1 data ∈ effects (exec (boot screenshot_server 0) spec_scenario).
Proof.
  apply (snapshot_artifact_written screenshot_options local_env 0 spec_scenario _ 1%nat
           (new_Snapshot 2100 "https://www.example.com" "<html>1</html>" (Some 1))).
  - apply screenshot_run. reflexivity.
  - vm_compute. in_list.
Defined.

(** ** The timeout race *)

(** X8. In every run the await of a [serve] call is over at most once: the
    promise of [addTimeoutToPromise] settles with the capture's outcome or
    with the timeout, whichever comes first, and what comes later is
    ignored. *)
Theorem serve_settles_once options env now trace w :
  run_of options env now trace w ->
  NoDup (settled (effects w))
  /\ (forall (c : nat) (r1 r2 : Result Snapshot),
        ESettled c r1 ∈ effects w -> ESettled c r2 ∈ effects w -> r1 = r2).
Proof.
  intros Hrun. destruct (run_settle _ _ _ _ _ Hrun) as [Hn _].
  split; [exact Hn |]. intros c r1 r2 H1 H2. unfold settled in Hn.
  pose proof (omap_NoDup_eq _ _ _ _ c Hn H1 H2 eq_refl eq_refl) as Heq.
  injection Heq as ->. reflexivity.
Qed.

Lemma serve_settles_once_witness :
  NoDup (settled (effects (exec (boot plain_server 0) late_capture)))
  /\ (forall (c : nat) (r1 r2 : Result Snapshot),
        ESettled c r1 ∈ effects (exec (boot plain_server 0) late_capture) ->
        ESettled c r2 ∈ effects (exec (boot plain_server 0) late_capture) ->
        r1 = r2).
Proof.
  apply (serve_settles_once no_options local_env 0 late_capture).
  apply plain_run. reflexivity.
Defined.

(** X9. A capture with screenshots that completes while its [serve] call
    still waits: when [writeFile] resolves, the new snapshot, created at
    that moment with the index taken, becomes [lastSnapshot] and is
    broadcast once as a "snapshot" event, the in-flight flag is cleared, and
    the screenshot can be fetched under the index. *)
Theorem capture_in_time (w : World) (t : Z) (c : nat) (due : Z)
    (url html : string) (i : Z) (data : Buffer) :
  waiting w = Some (c, due) ->
  captures w !! c = Some (AwaitWrite url html i data) ->
  let w' := step w (t, WriteResolved c) in
  let s := new_Snapshot t url html (Some i) in
  lastSnapshot (this w') = Some s
  /\ emitted (effects w') = ("snapshot", PSnapshot s) :: emitted (effects w)
  /\ servingSnapshot (this w') = false
  /\ waiting w' = None
  /\ get_screenshot w' (pretty i) = Some data.
Proof.
  intros Hw Hc. cbv zeta. rewrite get_screenshot_index.
  split_step.
  all: tests; simplify_eq.
  all: repeat split; apply lookup_insert_eq.
Qed.

Lemma capture_in_time_witness :
  lastSnapshot
    (this (step (exec (boot screenshot_server 0)
                   [(0, CallServe example_page);
                    (250, PageResolved 0 "<html></html>" [])])
                (260, WriteResolved 0)))
  = Some (new_Snapshot 260 "https://www.example.com" "<html></html>" (Some 0))
  /\ get_screenshot
       (step (exec (boot screenshot_server 0)
                [(0, CallServe example_page);
                 (250, PageResolved 0 "<html></html>" [])])
             (260, WriteResolved 0))
       (pretty 0)
     = Some [].
Proof.
  pose proof (capture_in_time
                (exec (boot screenshot_server 0)
                   [(0, CallServe example_page);
                    (250, PageResolved 0 "<html></html>" [])])
                260 0%nat 3000 "https://www.example.com" "<html></html>" 0 [])
    as H.
  cbv zeta in H.
  destruct H as (Hl & _ & _ & _ & Hg); [vm_compute; reflexivity .. |].
  exact (conj Hl Hg).
Defined.

(** X10. A capture that fails while its [serve] call still waits, at the
    page or at [writeFile]: [serve] logs the failure once and clears the
    in-flight flag, and that is all. [lastSnapshot] stays, nothing is
    broadcast, written or deleted, and the index a failed write had taken is
    not given back. *)
Theorem capture_fails (w : World) (t : Z) (c : nat) (due : Z) (k : Capture)
    (err : Error) :
  waiting w = Some (c, due) -> captures w !! c = Some k ->
  let w' := step w (t, rejected k c err) in
  this w' = set_servingSnapshot false (this w)
  /\ effects w' = ELog Exception "Serving of page for live view failed"
                    :: ESettled c (Throw err) :: effects w
  /\ files w' = files w /\ unlinks w' = unlinks w
  /\ waiting w' = None /\ captures w' = delete c (captures w).
Proof.
  intros Hw Hc. cbv zeta.
  destruct k; unfold rejected; split_step.
  all: tests; simplify_eq.
  all: auto 10.
Qed.

Lemma capture_fails_witness :
  this (step (exec (boot screenshot_server 0)
                [(0, CallServe example_page);
                 (250, PageResolved 0 "<html></html>" [])])
             (260, WriteRejected 0 (JsError "ENOSPC")))
  = set_servingSnapshot false
      (this (exec (boot screenshot_server 0)
               [(0, CallServe example_page);
                (250, PageResolved 0 "<html></html>" [])])).
Proof.
  pose proof (capture_fails
                (exec (boot screenshot_server 0)
                   [(0, CallServe example_page);
                    (250, PageResolved 0 "<html></html>" [])])
                260 0%nat 3000
                (AwaitWrite "https://www.example.com" "<html></html>" 0 [])
                (JsError "ENOSPC")) as H.
  cbv zeta in H.
  destruct H as (Ht & _); [vm_compute; reflexivity .. |].
  exact Ht.
Defined.

(** ** Prompts *)

(** X11. A [prompt] call made while an earlier one still waits replaces
    the stored resolve function, and the earlier call is lost: whatever
    happens afterwards, however many answers arrive, it stays suspended and
    its promise never settles. *)
Theorem overwritten_prompt_never_settles options env now trace w (p : nat)
    (t : Z) (options' : option value) (rest : list (Z * Event)) :
  run_of options env now trace w -> p ∈ prompts w ->
  let w' := exec (step w (t, CallPrompt options')) rest in
  p ∈ prompts w' /\ forall r, EPrompt p r ∉ effects w'.
Proof.
  intros Hrun Hp. cbv zeta.
  destruct (run_prompt _ _ _ _ _ Hrun) as (_ & Hpend & _).
  destruct (Hpend p Hp) as [Hns Hlt].
  assert (orphan p (step w (t, CallPrompt options'))) as Ho.
  { unfold orphan. split_step. repeat split; simpl.
    - set_solver.
    - intros [= Heq]. lia.
    - lia.
    - exact Hns. }
  apply (exec_orphan p rest) in Ho. destruct Ho as (Hin & _ & _ & Hnot).
  split; [exact Hin |]. intros r Hr. apply Hnot.
  apply list_elem_of_omap. exists (EPrompt p r). auto.
Qed.

Lemma overwritten_prompt_never_settles_witness :
  0%nat ∈ prompts (exec (step (exec (boot prompt_server 0) [(0, CallPrompt None)])
                           (10, CallPrompt None))
                     [(20, PromptAnswer ok_answer None);
                      (30, PromptAnswer ok_answer None)])
  /\ forall r,
       EPrompt 0 r ∉ effects
         (exec (step (exec (boot prompt_server 0) [(0, CallPrompt None)])
                  (10, CallPrompt None))
            [(20, PromptAnswer ok_answer None);
             (30, PromptAnswer ok_answer None)]).
Proof.
  apply (overwritten_prompt_never_settles prompt_options local_env 0
           [(0, CallPrompt None)]).
  - apply prompt_run. reflexivity.
  - apply (bool_decide_unpack _). vm_compute. exact I.
Defined.

(** X12. In every run the promise of a [prompt] call settles at most once,
    and only after its resolve function was applied to an answer: a call is
    never resumed without an answer, and a second answer does not resume it
    again. *)
Theorem prompt_settles_once options env now trace w :
  run_of options env now trace w ->
  NoDup (prompt_settled (effects w))
  /\ (forall (p : nat) (r1 r2 : Result value),
        EPrompt p r1 ∈ effects w -> EPrompt p r2 ∈ effects w -> r1 = r2)
  /\ (forall (p : nat) (r : Result value),
        EPrompt p r ∈ effects w -> exists v, EResolve p v ∈ effects w).
Proof.
  intros Hrun. destruct (run_prompt _ _ _ _ _ Hrun) as (Hn & _ & Hs & _).
  split; [exact Hn | split].
  - intros p r1 r2 H1 H2. unfold prompt_settled in Hn.
    pose proof (omap_NoDup_eq _ _ _ _ p Hn H1 H2 eq_refl eq_refl) as Heq.
    injection Heq as ->. reflexivity.
  - intros p r Hr.
    assert (p ∈ prompt_settled (effects w)) as Hin
      by (apply list_elem_of_omap; exists (EPrompt p r); auto).
    destruct (Hs p Hin) as [_ Hres].
    apply list_elem_of_omap in Hres as (e & He & Hres).
    destruct e; try discriminate. injection Hres as ->. eauto.
Qed.

Lemma prompt_settles_once_witness :
  NoDup (prompt_settled (effects (exec (boot prompt_server 0) answered_prompt)))
  /\ (forall (p : nat) (r1 r2 : Result value),
        EPrompt p r1 ∈ effects (exec (boot prompt_server 0) answered_prompt) ->
        EPrompt p r2 ∈ effects (exec (boot prompt_server 0) answered_prompt) ->
        r1 = r2)
  /\ (forall (p : nat) (r : Result value),
        EPrompt p r ∈ effects (exec (boot prompt_server 0) answered_prompt) ->
        exists v, EResolve p v ∈ effects (exec (boot prompt_server 0) answered_prompt)).
Proof.
  apply (prompt_settles_once prompt_options local_env 0 answered_prompt).
  apply prompt_run. reflexivity.
Defined.

(** X13. In every run the registered handlers have been invoked at most as
    many times as [prompt] calls have been resumed: an answer that finds no
    waiting call, a repeated one for instance, invokes no handler. *)
Theorem handler_once_per_prompt options env now trace w :
  run_of options env now trace w ->
  (length (handled (effects w)) <= length (prompt_settled (effects w)))%nat.
Proof. intros Hrun. apply (run_prompt _ _ _ _ _ Hrun). Qed.

Lemma handler_once_per_prompt_witness :
  (length (handled (effects (exec (boot prompt_server 0%Z)
                               (answered_prompt
                                  ++ [(950%Z, PromptAnswer ok_answer None)]))))
   <= length (prompt_settled
                (effects (exec (boot prompt_server 0%Z)
                            (answered_prompt
                               ++ [(950%Z, PromptAnswer ok_answer None)])))))%nat.
Proof.
  apply (handler_once_per_prompt prompt_options local_env 0
           (answered_prompt ++ [(950, PromptAnswer ok_answer None)])).
  apply prompt_run. reflexivity.
Defined.

(** X14. In every run, an answer that arrives before the first [prompt]
    call makes the socket handler throw: [resolveMessagePromise] is
    undefined until then, the [TypeError] of calling it is not caught in the
    handler, and no handler of [promptHandlers] runs. *)
Theorem early_answer_throws options env now trace w (t : Z) (data : value)
    (parsed : option value) :
  run_of options env now trace w -> prompted (effects w) = [] ->
  EUncaught (TypeError "this.resolveMessagePromise is not a function")
    ∈ effects (step w (t, PromptAnswer data parsed))
  /\ handled (effects (step w (t, PromptAnswer data parsed))) = handled (effects w)
  /\ this (step w (t, PromptAnswer data parsed)) = this w.
Proof.
  intros Hrun Hnone. apply (run_resolver _ _ _ _ _ Hrun) in Hnone.
  destruct parsed; split_step; try congruence.
  all: repeat split; apply list_elem_of_here.
Qed.

Lemma early_answer_throws_witness :
  EUncaught (TypeError "this.resolveMessagePromise is not a function")
    ∈ effects (step (exec (boot prompt_server 0) [(0, Connection)])
                 (5, PromptAnswer ok_answer None))
  /\ handled (effects (step (exec (boot prompt_server 0) [(0, Connection)])
                         (5, PromptAnswer ok_answer None)))
     = handled (effects (exec (boot prompt_server 0) [(0, Connection)]))
  /\ this (step (exec (boot prompt_server 0) [(0, Connection)])
             (5, PromptAnswer ok_answer None))
     = this (exec (boot prompt_server 0) [(0, Connection)]).
Proof.
  apply (early_answer_throws prompt_options local_env 0 [(0, Connection)]).
  - apply prompt_run. reflexivity.
  - vm_compute. reflexivity.
Defined.

(** X19. The lookup of line 120 also finds what the mapping inherits. For
    a response whose action is not registered but is the name of one of the
    twelve members of [Object.prototype], [handleResponse] logs no warning:
    it calls the inherited function on the response and returns what that
    returns, or throws a [TypeError] when the member cannot be called (for
    [__proto__]). *)
Theorem inherited_member_invoked (w : World) (response action : value)
    (key : string) :
  get_action response = Ok action -> property_key action = Ok key ->
  promptHandlers (this w) !! key = None -> key ∈ Object_prototype_names ->
  exists m, Object_prototype (promptHandlers (this w)) !! key = Some m
    /\ handleResponse response w =
         match m with
         | Function f => (f response, with_effects (cons (EHandler key response)) w)
         | NotCallable =>
             (Throw (TypeError "this.promptHandlers[response.action] is not a function"),
              w)
         end.
Proof.
  intros Ha Hk Hown Hin.
  assert (exists m, Object_prototype (promptHandlers (this w)) !! key = Some m)
    as [m Hm].
  { unfold Object_prototype_names in Hin. unfold Object_prototype.
    repeat (apply elem_of_cons in Hin as [-> | Hin]; [eexists; reflexivity |]).
    inversion Hin. }
  exists m. split; [exact Hm |].
  run. rewrite Ha. simpl. rewrite Hk. simpl.
  unfold get_member. rewrite Hown, Hm.
  destruct m as [f |]; simpl; [destruct (f response) |]; reflexivity.
Qed.

Lemma inherited_member_invoked_witness :
  exists m, Object_prototype (promptHandlers (this (boot prompt_server 0))) !! "toString"
            = Some m
    /\ handleResponse toString_answer (boot prompt_server 0) =
         match m with
         | Function f =>
             (f toString_answer,
              with_effects (cons (EHandler "toString" toString_answer))
                (boot prompt_server 0))
         | NotCallable =>
             (Throw (TypeError "this.promptHandlers[response.action] is not a function"),
              boot prompt_server 0)
         end.
Proof.
  apply (inherited_member_invoked (boot prompt_server 0) toString_answer
           (VStr "toString") "toString").
  - reflexivity.
  - reflexivity.
  - vm_compute. reflexivity.
  - unfold Object_prototype_names. in_list.
Defined.

(** ** Life cycle *)

(** X15. [start()] never rejects. Afterwards [isRunning()] is true exactly
    when the screenshot directory could be ensured and the HTTP server
    listens on the port; otherwise the failure is logged and [isRunning()] is
    false. Nothing else in the object changes. *)
Theorem start_outcome (w : World) (ensureDir : string -> Result unit)
    (listen : option Z -> Result unit) :
  exists w', start ensureDir listen w = (Ok tt, w')
    /\ (isRunning (this w') = true <->
        ensureDir (screenshotDirectoryPath (this w)) = Ok tt
        /\ listen (port (this w)) = Ok tt)
    /\ (isRunning (this w') = false ->
        ELog Exception "Live view web server failed to start." ∈ effects w')
    /\ this w' = set_isRunning (isRunning (this w')) (this w).
Proof.
  unfold start, isRunning. run.
  destruct (ensureDir (screenshotDirectoryPath (this w))) as [[] | e]; simpl.
  - destruct (listen (port (this w))) as [[] | e]; simpl.
    + eexists. split; [reflexivity |]. simpl.
      repeat split; auto; discriminate.
    + eexists. split; [reflexivity |]. simpl.
      repeat split; try discriminate; try (intros [_ [=]]).
      intros _. apply list_elem_of_here.
  - eexists. split; [reflexivity |]. simpl.
    repeat split; try discriminate; try (intros [[=] _]).
    intros _. apply list_elem_of_here.
Qed.

Lemma exec_isRunning (trace : list (Z * Event)) (w : World) :
  _isRunning (this (exec w trace)) = _isRunning (this w).
Proof.
  revert w. induction trace as [| [t ev] trace IH]; intros w; [reflexivity |].
  simpl. rewrite IH. apply step_isRunning.
Qed.

Lemma exec_http (trace : list (Z * Event)) (w : World) :
  httpServer (this (exec w trace)) = httpServer (this w).
Proof.
  revert w. induction trace as [| [t ev] trace IH]; intros w; [reflexivity |].
  simpl. rewrite IH. apply step_http.
Qed.

(** X16. A server that was started, at any point of a run, and has
    handled any events since reports [isRunning()] true; once
    [httpServer.close] has called back, [stop()] has resolved and
    [isRunning()] is false, whether or not [close] reported an error.
    [stop()] logs the outcome and changes nothing else: the clients, the
    last snapshot and the in-flight flag stay as they are. *)
Theorem stop_outcome options env now trace w
    (ensureDir : string -> Result unit) (listen : option Z -> Result unit)
    (rest : list (Z * Event)) (close : option Error) :
  run_of options env now trace w ->
  ensureDir (screenshotDirectoryPath (this w)) = Ok tt ->
  listen (port (this w)) = Ok tt ->
  let started := exec (start ensureDir listen w).2 rest in
  isRunning (this started) = true
  /\ exists w', stop close started = (Ok tt, w')
       /\ isRunning (this w') = false
       /\ this w' = set_isRunning false (this started)
       /\ exists line, effects w' = line :: effects started.
Proof.
  intros Hrun He Hl. cbv zeta.
  assert ((start ensureDir listen w).2
          = with_effects (cons (ELog Info "Live view web server started"))
              (with_this (set_isRunning true) w)) as ->.
  { unfold start. run. rewrite He. simpl. rewrite Hl. reflexivity. }
  unfold isRunning. rewrite exec_isRunning. split; [reflexivity |].
  unfold stop. run. rewrite exec_http. simpl.
  rewrite (run_http _ _ _ _ _ Hrun).
  destruct close; simpl; eexists; repeat split; eexists; reflexivity.
Qed.
Lemma stop_outcome_witness :
  isRunning
    (this (exec (start (fun _ => Ok tt) (fun _ => Ok tt)
                   (exec (boot plain_server 0) first_capture)).2
             [(5000, Connection)]))
  = true
  /\ exists w',
       stop None
         (exec (start (fun _ => Ok tt) (fun _ => Ok tt)
                  (exec (boot plain_server 0) first_capture)).2
            [(5000, Connection)])
       = (Ok tt, w')
       /\ isRunning (this w') = false
       /\ this w'
          = set_isRunning false
              (this (exec (start (fun _ => Ok tt) (fun _ => Ok tt)
                             (exec (boot plain_server 0) first_capture)).2
                       [(5000, Connection)]))
       /\ exists line,
            effects w'
            = line :: effects
                        (exec (start (fun _ => Ok tt) (fun _ => Ok tt)
                                 (exec (boot plain_server 0) first_capture)).2
                           [(5000, Connection)]).
Proof.
  apply (stop_outcome no_options local_env 0 first_capture _
           (fun _ => Ok tt) (fun _ => Ok tt) [(5000, Connection)] None).
  - apply plain_run. reflexivity.
  - reflexivity.
  - reflexivity.
Defined.

(** X17. No handler consults [isRunning]: a turn of the event loop does
    the same whether the server was started, was stopped or never started,
    and it leaves the flag as it is. In particular [serve] captures and
    broadcasts on a server that is not running. *)
Theorem isRunning_not_consulted (w : World) (b : bool) (t : Z) (ev : Event) :
  step (with_this (set_isRunning b) w) (t, ev)
  = with_this (set_isRunning b) (step w (t, ev)).
Proof.
  destruct w as [s now' cs wt ps fs us n es]. destruct s.
  destruct ev; unfold step, dispatch; simpl.
  all: repeat first
         [ progress (autounfold with livecast; unfold hasClients, throttled; simpl)
         | match goal with
           | |- context [match ?x with _ => _ end] =>
               lazymatch x with
               | context [match _ with _ => _ end] => fail
               | _ => destruct x
               end
           end ].
  all: reflexivity.
Qed.

(** X18. Captures can overlap. When the timer of a [serve] call fires
    while its capture is still under way, the in-flight flag is cleared
    although the capture goes on, and the next [serve] call that passes the
    observer and throttle checks starts a second capture beside it: after
    a timeout, two activations of [_makeSnapshot] are live at once. *)
Theorem captures_overlap_after_timeout options env now trace w (c : nat)
    (due t t' : Z) (page : Page) :
  run_of options env now trace w ->
  waiting w = Some (c, due) -> due <= t ->
  hasClients (this w) = true -> throttled t' (this w) = false ->
  let w' := step (step w (t, TimerFired)) (t', CallServe page) in
  c ∈ dom (captures w') /\ next w ∈ dom (captures w') /\ c <> next w
  /\ waiting w' = Some (next w, t' + snapshotTimeoutMillis (this w)).
Proof.
  intros Hrun Hw Hdue Hclients Hthr. cbv zeta.
  destruct (run_capture _ _ _ _ _ Hrun) as (Hlt & _ & _ & Hlive).
  pose proof (Hlive _ _ Hw) as Hc. pose proof (Hlt _ Hc) as Hn.
  assert (step w (t, TimerFired)
          = with_this (set_servingSnapshot false)
              (with_effects
                 (fun l => ELog Exception "Serving of page for live view failed"
                             :: ESettled c (Throw timeout_error) :: l)
                 (with_waiting (fun _ => None) (with_clock (fun _ => t) w)))) as ->.
  { split_step; tests; simplify_eq; try lia. reflexivity. }
  assert (captures
            (step
               (with_this (set_servingSnapshot false)
                  (with_effects
                     (fun l => ELog Exception "Serving of page for live view failed"
                                 :: ESettled c (Throw timeout_error) :: l)
                     (with_waiting (fun _ => None) (with_clock (fun _ => t) w))))
               (t', CallServe page))
          = <[next w := AwaitPage (page_url page)]> (captures w)
          /\ waiting
               (step
                  (with_this (set_servingSnapshot false)
                     (with_effects
                        (fun l => ELog Exception "Serving of page for live view failed"
                                    :: ESettled c (Throw timeout_error) :: l)
                        (with_waiting (fun _ => None) (with_clock (fun _ => t) w))))
                  (t', CallServe page))
             = Some (next w, t' + snapshotTimeoutMillis (this w))) as [-> ->].
  { unfold step, dispatch. run.
    change (hasClients (set_servingSnapshot false (this w))) with (hasClients (this w)).
    rewrite Hclients. simpl.
    change (throttled t' (set_servingSnapshot false (this w)))
      with (throttled t' (this w)).
    rewrite Hthr. simpl. split; reflexivity. }
  split; [| split; [| split]].
  - apply elem_of_dom. rewrite lookup_insert_ne by lia. apply elem_of_dom, Hc.
  - apply elem_of_dom. rewrite lookup_insert_eq. eauto.
  - lia.
  - reflexivity.
Qed.

Lemma captures_overlap_after_timeout_witness :
  0%nat ∈ dom (captures (step (step (exec (boot plain_server 0)
                                       [(0, CallServe example_page)])
                                    (3000, TimerFired))
                              (3100, CallServe example_page)))
  /\ next (exec (boot plain_server 0) [(0, CallServe example_page)])
     ∈ dom (captures (step (step (exec (boot plain_server 0)
                                    [(0, CallServe example_page)])
                                 (3000, TimerFired))
                           (3100, CallServe example_page)))
  /\ 0%nat <> next (exec (boot plain_server 0) [(0, CallServe example_page)])
  /\ waiting (step (step (exec (boot plain_server 0) [(0, CallServe example_page)])
                      (3000, TimerFired))
                (3100, CallServe example_page))
     = Some (next (exec (boot plain_server 0) [(0, CallServe example_page)]),
             3100 + snapshotTimeoutMillis
                      (this (exec (boot plain_server 0) [(0, CallServe example_page)]))).
Proof.
  apply (captures_overlap_after_timeout no_options local_env 0
           [(0, CallServe example_page)] _ 0%nat 3000).
  - apply plain_run. reflexivity.
  - vm_compute. reflexivity.
  - lia.
  - vm_compute. reflexivity.
  - vm_compute. reflexivity.
Defined.
